(** * Input pipeline of the image-captioning trainer

    A shallow embedding of [src/im2txt/train_utils/inputs.py] and the
    properties of its padding, masking, queue sizing and augmentation
    selection.

    Integers (Python [int], int32/int64 tensors) are [Z]; float32 tensors are
    lists of [Q]; graph construction is a computation in an error monad,
    because Python exceptions raised while the graph is built abort the
    construction; ops that fail when they are run return a [result] too. *)

From Stdlib Require Import ZArith List String Ascii QArith Lia Bool.
Import ListNotations.

Open Scope Z_scope.

(** ** Errors and results *)

Inductive error : Type :=
| InvalidArgumentError (msg : string)
| ValueError (msg : string)
| TypeError (msg : string)
| AssertionError
| ZeroDivisionError
| FatalLogAbort (msg : string).

Inductive result (A : Type) : Type :=
| Ok (a : A)
| Err (e : error).

Arguments Ok {A} a.
Arguments Err {A} e.

Definition bind {A B : Type} (r : result A) (k : A -> result B) : result B :=
  match r with
  | Ok a => k a
  | Err e => Err e
  end.

Notation "'do' x <- r ; k" := (bind r (fun x => k))
  (at level 60, x pattern, r at next level, right associativity).

Definition is_ok {A : Type} (r : result A) : bool :=
  match r with Ok _ => true | Err _ => false end.

Fixpoint mapM {A B : Type} (f : A -> result B) (l : list A)
  : result (list B) :=
  match l with
  | [] => Ok []
  | x :: xs =>
      do y <- f x;
      do ys <- mapM f xs;
      Ok (y :: ys)
  end.

(** Python's slice [l[a:b]] for [0 <= a <= b]. *)
Definition py_slice {A : Type} (l : list A) (a b : nat) : list A :=
  firstn (b - a) (skipn a l).

Definition sumZ (l : list Z) : Z := fold_right Z.add 0 l.

(** ** The TensorFlow ops the module calls

    Each definition follows the documented contract of the op, restricted to
    the ranks at which [inputs.py] uses it. *)

Module TF.

(** [tf.shape(t)[0]] *)
Definition shape0 {A : Type} (t : list A) : Z := Z.of_nat (List.length t).

(** [tf.slice(input, [begin], [size])] on a 1-D tensor.  A size of [-1]
    stands for all remaining elements, [dim - begin]; the op requires
    [0 <= begin <= begin + size <= dim] and raises otherwise. *)
Definition slice {A : Type} (input : list A) (begin size : Z)
  : result (list A) :=
  let dim := shape0 input in
  let size := if size =? -1 then dim - begin else size in
  if (0 <=? begin) && (0 <=? size) && (begin + size <=? dim)
  then Ok (firstn (Z.to_nat size) (skipn (Z.to_nat begin) input))
  else Err (InvalidArgumentError "slice: begin or size out of range").

(** [tf.ones([n], dtype=tf.int32)]: a negative dimension is rejected. *)
Definition ones (n : Z) : result (list Z) :=
  if 0 <=? n then Ok (repeat 1 (Z.to_nat n))
  else Err (InvalidArgumentError "ones: dimension must be >= 0").

(** Right padding of one row with the zero of its dtype, as done by the
    padding queue behind [dynamic_pad=True]. *)
Definition pad_to (n : nat) (row : list Z) : list Z :=
  row ++ repeat 0 (n - List.length row).

(** Every row of one component is padded to the longest row of that
    component within the batch. *)
Definition dynamic_pad (rows : list (list Z)) : list (list Z) :=
  let padded_length := list_max (map (@List.length Z) rows) in
  map (pad_to padded_length) rows.

(** [tf.unique]: the distinct values in order of first occurrence. *)
Fixpoint unique_aux (seen : list Z) (l : list Z) : list Z :=
  match l with
  | [] => []
  | x :: xs =>
      if existsb (Z.eqb x) seen then unique_aux seen xs
      else x :: unique_aux (x :: seen) xs
  end.

Definition unique (l : list Z) : list Z := unique_aux [] l.

(** [tf.one_hot(indices, depth)] for a 1-D [indices]: one row of width
    [depth] per index, 1.0 at the index and 0.0 elsewhere; an index outside
    [0, depth) gives a row of zeros. *)
Definition one_hot_row (depth : Z) (i : Z) : list Q :=
  map (fun j => if Z.of_nat j =? i then 1%Q else 0%Q)
      (seq 0 (Z.to_nat depth)).

(** A depth given as a Python integer is checked when the op is built: a
    negative depth is refused. *)
Definition check_depth (depth : Z) : result unit :=
  if depth <? 0 then Err (ValueError "one_hot: depth must be non-negative")
  else Ok tt.

Definition one_hot (indices : list Z) (depth : Z)
  : result (list (list Q)) :=
  do _ <- check_depth depth;
  Ok (map (one_hot_row depth) indices).

(** An integer attribute of an op, such as the capacity of a queue, is
    stored as a signed 64-bit value: an integer outside that range is
    refused when the op is built. *)
Definition int64_attr (v : Z) : result unit :=
  if (- 2 ^ 63 <=? v) && (v <? 2 ^ 63) then Ok tt
  else Err (ValueError "Value out of range").

(** [1. / capacity], the factor of the queue-fill summary, as far as it can
    raise: Python refuses to divide by zero. *)
Definition fill_summary (capacity : Z) : result unit :=
  if capacity =? 0 then Err ZeroDivisionError else Ok tt.

(** [QueueRunner(queue, enqueue_ops)] refuses an empty list of enqueue
    ops. *)
Definition queue_runner (enqueue_ops : nat) : result unit :=
  match enqueue_ops with
  | O => Err (ValueError "Must provide queue and enqueue_ops.")
  | S _ => Ok tt
  end.

(** [tf.reduce_sum(m, axis=0)] of a matrix with rows of width [depth];
    [depth] is the static second dimension, which gives the width of the
    sum of no rows. *)
Fixpoint vadd (u v : list Q) : list Q :=
  match u, v with
  | x :: u', y :: v' => Qplus x y :: vadd u' v'
  | _, _ => []
  end.

Definition reduce_sum_axis0 (depth : Z) (m : list (list Q)) : list Q :=
  fold_right vadd (repeat 0%Q (Z.to_nat depth)) m.

End TF.

(** Tensors of rank 1 or 2, for the arguments whose rank and dtype the
    module leaves open: [T1] and [T2] hold floats, [I1] and [I2] hold
    integers, as the mask of the batcher does. *)
Inductive tensor : Type :=
| T1 (v : list Q)
| T2 (m : list (list Q))
| I1 (v : list Z)
| I2 (m : list (list Z)).

Module Broadcast.

Definition shape0 (t : tensor) : Z :=
  match t with
  | T1 v => Z.of_nat (List.length v)
  | T2 m => Z.of_nat (List.length m)
  | I1 v => Z.of_nat (List.length v)
  | I2 m => Z.of_nat (List.length m)
  end.

Fixpoint vmul (u v : list Q) : list Q :=
  match u, v with
  | x :: u', y :: v' => Qmult x y :: vmul u' v'
  | _, _ => []
  end.

(** [u * v] for two vectors: equal widths multiply pointwise, a width of
    one is stretched, anything else is a shape error. *)
Definition mul1 (u v : list Q) : result (list Q) :=
  if (List.length u =? List.length v)%nat then Ok (vmul u v)
  else match u, v with
       | [x], _ => Ok (map (Qmult x) v)
       | _, [y] => Ok (map (fun x => Qmult x y) u)
       | _, _ => Err (ValueError "Dimensions must be equal")
       end.

(** The operands of [*] must have one dtype: a float vector is not
    multiplied with an integer tensor, and nothing is cast. *)
Definition require_float (t : tensor) : result unit :=
  match t with
  | T1 _ | T2 _ => Ok tt
  | I1 _ | I2 _ =>
      Err (TypeError "Mul: type int32 does not match type float32")
  end.

(** [u * t] for a float vector [u]: against a matrix the vector is aligned
    with the last axis, so it multiplies every row. *)
Definition mul (u : list Q) (t : tensor) : result tensor :=
  do _ <- require_float t;
  match t with
  | T1 v => do r <- mul1 u v; Ok (T1 r)
  | T2 m => do rows <- mapM (mul1 u) m; Ok (T2 rows)
  | I1 _ | I2 _ => Ok t
  end.

(** The tensor read as floats. *)
Definition to_float (t : tensor) : tensor :=
  match t with
  | T1 _ | T2 _ => t
  | I1 v => T1 (map inject_Z v)
  | I2 m => T2 (map (map inject_Z) m)
  end.

End Broadcast.

(** ** Queues *)

(** The queue of shard names made by [tf.train.string_input_producer]. *)
Record shard_queue : Type := {
  sq_files : list string;
  sq_shuffle : bool;
  sq_capacity : Z;
  sq_name : string
}.

Inductive queue_kind : Type :=
| FIFOQueue
| RandomShuffleQueue (min_after_dequeue : Z).

(** A value queue holding items of type [A]. *)
Record queue (A : Type) : Type := {
  q_kind : queue_kind;
  q_capacity : Z;
  q_name : string;
  q_items : list A
}.

Arguments q_kind {A} q.
Arguments q_capacity {A} q.
Arguments q_name {A} q.
Arguments q_items {A} q.

Module Queue.

Definition size {A : Type} (q : queue A) : Z :=
  Z.of_nat (List.length (q_items q)).

(** An enqueue blocks ([None]) while the queue is full. *)
Definition enqueue {A : Type} (q : queue A) (x : A) : option (queue A) :=
  if size q <? q_capacity q
  then Some {| q_kind := q_kind q; q_capacity := q_capacity q;
               q_name := q_name q; q_items := q_items q ++ [x] |}
  else None.

Fixpoint remove_nth {A : Type} (n : nat) (l : list A) : list A :=
  match n, l with
  | _, [] => []
  | O, _ :: xs => xs
  | S n', x :: xs => x :: remove_nth n' xs
  end.

(** A dequeue blocks ([None]) while no element is eligible.  The FIFO queue
    hands out its oldest element; the shuffle queue hands out the element
    picked by [choice], and only while more than [min_after_dequeue]
    elements are held. *)
Definition dequeue {A : Type} (q : queue A) (choice : nat)
  : option (A * queue A) :=
  match q_kind q with
  | FIFOQueue =>
      match q_items q with
      | [] => None
      | x :: rest =>
          Some (x, {| q_kind := q_kind q; q_capacity := q_capacity q;
                      q_name := q_name q; q_items := rest |})
      end
  | RandomShuffleQueue min_after_dequeue =>
      if min_after_dequeue <? size q then
        let i := (choice mod List.length (q_items q))%nat in
        match nth_error (q_items q) i with
        | Some x =>
            Some (x, {| q_kind := q_kind q; q_capacity := q_capacity q;
                        q_name := q_name q;
                        q_items := remove_nth i (q_items q) |})
        | None => None
        end
      else None
  end.

(** The order in which one pass over the shards hands out their names:
    [perm] is the permutation the shuffling producer happens to draw. *)
Definition epoch_order (sq : shard_queue)
           (perm : list string -> list string) : list string :=
  if sq_shuffle sq then perm (sq_files sq) else sq_files sq.

End Queue.

(** [tf.RandomShuffleQueue(capacity, min_after_dequeue, ...)] and
    [tf.FIFOQueue(capacity, ...)]: building the op checks its integer
    attributes and nothing else; the queue starts empty. *)
Definition new_shuffle_queue {A : Type} (capacity min_after_dequeue : Z)
           (name : string) : result (queue A) :=
  do _ <- TF.int64_attr capacity;
  do _ <- TF.int64_attr min_after_dequeue;
  Ok {| q_kind := RandomShuffleQueue min_after_dequeue;
        q_capacity := capacity; q_name := name; q_items := [] |}.

Definition new_fifo_queue {A : Type} (capacity : Z) (name : string)
  : result (queue A) :=
  do _ <- TF.int64_attr capacity;
  Ok {| q_kind := FIFOQueue; q_capacity := capacity; q_name := name;
        q_items := [] |}.

(** [tf.train.string_input_producer]: a Python list with no element is
    refused when the producer is built. *)
Definition string_input_producer (string_tensor : list string)
           (shuffle : bool) (capacity : Z) (name : string)
  : result shard_queue :=
  match string_tensor with
  | [] => Err (ValueError
                 "string_input_producer requires a non-null input tensor")
  | _ => Ok {| sq_files := string_tensor; sq_shuffle := shuffle;
               sq_capacity := capacity; sq_name := name |}
  end.

(** ** Records *)

(** A [tensorflow.SequenceExample]: context features and feature lists by
    name. *)
Record SequenceExample : Type := {
  context : list (string * string);
  feature_lists : list (string * list Z)
}.

Fixpoint lookup {V : Type} (k : string) (kvs : list (string * V))
  : option V :=
  match kvs with
  | [] => None
  | (k', v) :: rest => if String.eqb k k' then Some v else lookup k rest
  end.

(** [tf.parse_single_sequence_example] raises when a requested feature is
    absent from the record. *)
Definition require {V : Type} (k : string) (kvs : list (string * V))
  : result V :=
  match lookup k kvs with
  | Some v => Ok v
  | None => Err (InvalidArgumentError "feature missing from the record")
  end.

(** Python truth value of an optional string: [None] and the empty string
    are false. *)
Definition truthy (s : option string) : bool :=
  match s with
  | Some s => negb (String.eqb s "")
  | None => false
  end.

(** [str.split(",")] *)
Fixpoint split_comma (s : string) : list string :=
  match s with
  | EmptyString => [EmptyString]
  | String c rest =>
      if Ascii.eqb c "," then EmptyString :: split_comma rest
      else match split_comma rest with
           | p :: ps => String c p :: ps
           | [] => [String c EmptyString]
           end
  end.

(** The command-line flags the module reads. *)
Record Flags : Type := {
  input_file_pattern : string;
  batch_size : Z;
  values_per_input_shard : Z;
  input_queue_capacity_factor : Z;
  num_input_reader_threads : Z;
  num_preprocess_threads : Z;
  support_flip : bool;
  image_feature_name : string;
  caption_feature_name : string;
  flip_caption_feature_name : option string;
  vocab_size : Z
}.

(** [range(n)] *)
Definition py_range (n : Z) : list Z := map Z.of_nat (seq 0 (Z.to_nat n)).

(** [assert cond] *)
Definition py_assert (cond : bool) : result unit :=
  if cond then Ok tt else Err AssertionError.

(** [tf.less] on two float scalars. *)
Definition less (x y : Q) : bool := negb (Qle_bool y x).

(** What [prefetch_input_data] leaves in the graph: the shard name queue,
    the value queue it returns and one enqueue op per reader thread. *)
Record prefetcher : Type := {
  filename_queue : shard_queue;
  values_queue : queue SequenceExample;
  enqueue_ops : nat
}.

(** ** The module [inputs.py] *)

Section Inputs.

(** Decoded images; [simple_process_image] comes from the sibling module
    [image_processing], taken here as given. *)
Variable image : Type.
Variable simple_process_image : string -> Z -> bool -> bool -> image.

(** [tf.gfile.Glob]: the files matching one pattern. *)
Variable Glob : string -> list string.

(** Whether a message logged through [tf.logging.fatal] ends the process.
    The properties below hold either way. *)
Variable fatal_aborts : bool.

Variable FLAGS : Flags.

Definition parse_sequence_example (serialized : SequenceExample)
           (image_feature caption_feature : string)
           (flip_caption_feature : option string)
  : result (string * list Z * option (list Z)) :=
  match (if truthy flip_caption_feature then flip_caption_feature
         else None) with
  | None =>
      do encoded_image <- require image_feature (context serialized);
      do caption <- require caption_feature (feature_lists serialized);
      Ok (encoded_image, caption, None)
  | Some flip_name =>
      do encoded_image <- require image_feature (context serialized);
      do caption <- require caption_feature (feature_lists serialized);
      do flip_caption <- require flip_name (feature_lists serialized);
      Ok (encoded_image, caption, Some flip_caption)
  end.

(** The shard set: every comma-separated pattern expanded in turn. *)
Definition data_files_of (file_pattern : string) : list string :=
  flat_map Glob (split_comma file_pattern).

Definition log_fatal (msg : string) : result unit :=
  if fatal_aborts then Err (FatalLogAbort msg) else Ok tt.

(** The [reader] argument only names the record format and is left out.
    The steps that can raise are kept in the order of the source: the log
    call, the shard name producer, the value queue, the queue runner over the
    enqueue ops and the division of the fill summary. *)
Definition prefetch_input_data (file_pattern : string) (is_training : bool)
           (batch_size values_per_shard : Z)
           (input_queue_capacity_factor num_reader_threads : Z)
           (shard_queue_name value_queue_name : string)
  : result prefetcher :=
  let data_files := data_files_of file_pattern in
  do _ <- match data_files with
          | [] => log_fatal "Found no input files matching the pattern"
          | _ => Ok tt
          end;
  do queues <-
    (if is_training then
       do filename_queue <-
         string_input_producer data_files true 16 shard_queue_name;
       let min_queue_examples :=
         values_per_shard * input_queue_capacity_factor in
       let capacity := min_queue_examples + 100 * batch_size in
       do values_queue <-
         new_shuffle_queue capacity min_queue_examples
                           ("random_" ++ value_queue_name);
       Ok (filename_queue, capacity, values_queue)
     else
       do filename_queue <-
         string_input_producer data_files false 1 shard_queue_name;
       let capacity := values_per_shard + 3 * batch_size in
       do values_queue <-
         new_fifo_queue capacity ("fifo_" ++ value_queue_name);
       Ok (filename_queue, capacity, values_queue));
  let capacity := snd (fst queues) in
  let enqueue_ops := List.length (py_range num_reader_threads) in
  do _ <- TF.queue_runner enqueue_ops;
  do _ <- TF.fill_summary capacity;
  Ok {| filename_queue := fst (fst queues);
        values_queue := snd queues;
        enqueue_ops := enqueue_ops |}.

(** The body of the loop of [batch_with_dynamic_pad]: the tuple one thread
    enqueues for one example. *)
Definition enqueue_tuple (image_and_caption : image * list Z)
  : result (image * list Z * list Z * list Z) :=
  let (image, caption) := image_and_caption in
  let caption_length := TF.shape0 caption in
  let input_length := caption_length - 1 in
  do input_seq <- TF.slice caption 0 input_length;
  do target_seq <- TF.slice caption 1 input_length;
  do indicator <- TF.ones input_length;
  Ok (image, input_seq, target_seq, indicator).

Record Batch : Type := {
  images : list image;
  input_seqs : list (list Z);
  target_seqs : list (list Z);
  mask : list (list Z)
}.

(** [tf.train.batch_join(..., dynamic_pad=True)] on the tuples dequeued for
    one batch. *)
Definition batch_join (tuples : list (image * list Z * list Z * list Z))
  : Batch :=
  {| images := map (fun t => fst (fst (fst t))) tuples;
     input_seqs := TF.dynamic_pad (map (fun t => snd (fst (fst t))) tuples);
     target_seqs := TF.dynamic_pad (map (fun t => snd (fst t)) tuples);
     mask := TF.dynamic_pad (map (fun t => snd t) tuples) |}.

(** What the batch tensors evaluate to in one step: the run side of
    [batch_with_dynamic_pad].  [images_and_captions] holds the examples that
    end up in the batch of the step, in the order the batching queue hands
    them out; their number is the batch size, and the queue capacity only
    bounds how many tuples wait.  The tuple of an example is derived before
    it is enqueued, so an example whose derivation raises stops the batch.
    What the function does while the graph is built, on the list of threads,
    is [batch_and_pad] below. *)
Definition batch_with_dynamic_pad
           (images_and_captions : list (image * list Z)) : result Batch :=
  do enqueue_list <- mapM enqueue_tuple images_and_captions;
  Ok (batch_join enqueue_list).

(** The caption lengths reported by the summaries of the batch. *)
Definition summary_lengths (b : Batch) : list Z :=
  map (fun row => sumZ row + 1) (mask b).

Definition caption_to_attributes_target (caption : list Z) (mask : tensor)
  : result tensor :=
  let unique_ids := TF.unique caption in
  let depth := Broadcast.shape0 mask in
  do rows <- TF.one_hot unique_ids depth;
  Broadcast.mul (TF.reduce_sum_axis0 depth rows) mask.

(** [tf.map_fn] builds its body once, with the graph, and runs it on every
    row: what the body refuses by dtype is refused even for no row. *)
Definition get_attributes_target (target_seq : list (list Z))
           (mask : tensor) : result (list tensor) :=
  do _ <- Broadcast.require_float mask;
  mapM (fun x => caption_to_attributes_target x mask) target_seq.

Definition c2ml (caption : list Z) : result (list Q) :=
  let unique_ids := TF.unique caption in
  do rows <- TF.one_hot unique_ids (vocab_size FLAGS);
  Ok (TF.reduce_sum_axis0 (vocab_size FLAGS) rows).

(** The body of [tf.map_fn] is built once: a depth it refuses is refused
    even for no row. *)
Definition caption_to_multi_labels (captions : list (list Z))
  : result (list (list Q)) :=
  do _ <- TF.check_depth (vocab_size FLAGS);
  mapM c2ml captions.

(** One preprocessing thread, as a function of the record it dequeues and
    of the value its [tf.random_uniform] op draws for that record. *)
Definition thread_op : Type :=
  SequenceExample -> Q -> result (image * list Z).

(** Both branches of [tf.cond] are built with the graph, and every output
    of a branch has to be a tensor: a [None] caption is refused then. *)
Definition cond_outputs (flip_caption_feature : option string)
  : result unit :=
  if truthy flip_caption_feature then Ok tt
  else Err (ValueError "None values not supported.").

(** The body of the loop over [thread_id]. *)
Definition preprocess_thread (is_training : bool) (thread_id : Z)
  : result thread_op :=
  if support_flip FLAGS then
    do _ <- cond_outputs (flip_caption_feature_name FLAGS);
    Ok (fun serialized_sequence_example u =>
          do parsed <- parse_sequence_example
                         serialized_sequence_example
                         (image_feature_name FLAGS)
                         (caption_feature_name FLAGS)
                         (flip_caption_feature_name FLAGS);
          let '(encoded_image, caption, flip_caption) := parsed in
          let flip_image :=
            simple_process_image encoded_image thread_id true is_training in
          let image :=
            simple_process_image encoded_image thread_id false is_training in
          if less u (1 # 2) then
            match flip_caption with
            | Some flip_caption => Ok (flip_image, flip_caption)
            | None => Err (ValueError "None values not supported.")
            end
          else Ok (image, caption))
  else
    Ok (fun serialized_sequence_example _ =>
          do parsed <- parse_sequence_example
                         serialized_sequence_example
                         (image_feature_name FLAGS)
                         (caption_feature_name FLAGS)
                         None;
          let '(encoded_image, caption, _) := parsed in
          let image :=
            simple_process_image encoded_image thread_id false is_training in
          Ok (image, caption)).

(** The graph [get_images_and_captions] returns: its batch tensors are a
    function of, for every example of the batch, the thread that produced
    it, the record that thread dequeued and the value it drew. *)
Record pipeline : Type := {
  input_queue : prefetcher;
  threads : list thread_op;
  queue_capacity : Z;
  run_batch : list (nat * SequenceExample * Q) -> result Batch
}.

Definition run_thread (threads : list thread_op)
           (job : nat * SequenceExample * Q) : result (image * list Z) :=
  let '(i, serialized, u) := job in
  match nth_error threads i with
  | Some op => op serialized u
  | None => Err (InvalidArgumentError "no such preprocessing thread")
  end.

(** The graph side of [batch_with_dynamic_pad]: [tf.train.batch_join]
    refuses an empty list of threads, builds its padding queue with the given
    capacity and registers the fill summary of that queue.  The batch tensors
    it returns are a function of the jobs of one step, the [batch_size]
    examples the queue hands out. *)
Definition batch_and_pad (images_and_captions : list thread_op)
           (batch_size queue_capacity : Z)
  : result (list (nat * SequenceExample * Q) -> result Batch) :=
  match images_and_captions with
  | [] => Err (ValueError "Expected at least one input in batch_join().")
  | _ :: _ =>
      do _ <- TF.int64_attr queue_capacity;
      do _ <- TF.fill_summary queue_capacity;
      Ok (fun jobs =>
            do examples <- mapM (run_thread images_and_captions) jobs;
            batch_with_dynamic_pad examples)
  end.

Definition get_images_and_captions (is_training : bool) : result pipeline :=
  do input_queue <-
    prefetch_input_data (input_file_pattern FLAGS) is_training
                        (batch_size FLAGS) (values_per_input_shard FLAGS)
                        (input_queue_capacity_factor FLAGS)
                        (num_input_reader_threads FLAGS)
                        "filename_queue" "input_queue";
  do _ <- py_assert (num_preprocess_threads FLAGS mod 2 =? 0);
  do images_and_captions <-
    mapM (preprocess_thread is_training)
         (py_range (num_preprocess_threads FLAGS));
  let queue_capacity :=
    2 * num_preprocess_threads FLAGS * batch_size FLAGS in
  do batch <- batch_and_pad images_and_captions (batch_size FLAGS)
                            queue_capacity;
  Ok {| input_queue := input_queue;
        threads := images_and_captions;
        queue_capacity := queue_capacity;
        run_batch := batch |}.

End Inputs.

Arguments enqueue_tuple {image} image_and_caption.
Arguments Batch image : clear implicits.
Arguments images {image} b.
Arguments input_seqs {image} b.
Arguments target_seqs {image} b.
Arguments mask {image} b.
Arguments batch_join {image} tuples.
Arguments batch_with_dynamic_pad {image} images_and_captions.
Arguments summary_lengths {image} b.
Arguments pipeline image : clear implicits.
Arguments input_queue {image} p.
Arguments threads {image} p.
Arguments queue_capacity {image} p.
Arguments run_batch {image} p.
Arguments run_thread {image} threads job.
Arguments batch_and_pad {image} images_and_captions batch_size
  queue_capacity.
Arguments preprocess_thread {image} simple_process_image FLAGS
  is_training thread_id.
Arguments get_images_and_captions {image} simple_process_image Glob
  fatal_aborts FLAGS is_training.

(** ** Running the enqueue ops of the prefetcher

    The queue runner gives every enqueue op a thread of its own.  All ops
    read through the one reader handed to [prefetch_input_data]: a thread
    takes the next record the reader has, then enqueues it, and the threads
    are scheduled freely between these two steps.  A consumer dequeues. *)

Module Runner.

Record state : Type := {
  unread : list SequenceExample;
  in_hand : list (option SequenceExample);
  values : queue SequenceExample;
  delivered : list SequenceExample
}.

Inductive action : Type :=
| Thread (t : nat)
| Dequeue (choice : nat).

Fixpoint set_nth {A : Type} (n : nat) (x : A) (l : list A) : list A :=
  match n, l with
  | _, [] => []
  | O, _ :: xs => x :: xs
  | S n', y :: xs => y :: set_nth n' x xs
  end.

(** A thread that cannot go on (nothing left to read, queue full) and a
    dequeue that finds no eligible record leave the state as it is: they
    wait. *)
Definition step (s : state) (a : action) : state :=
  match a with
  | Thread t =>
      match nth_error (in_hand s) t with
      | Some None =>
          match unread s with
          | x :: rest =>
              {| unread := rest;
                 in_hand := set_nth t (Some x) (in_hand s);
                 values := values s;
                 delivered := delivered s |}
          | [] => s
          end
      | Some (Some x) =>
          match Queue.enqueue (values s) x with
          | Some q =>
              {| unread := unread s;
                 in_hand := set_nth t None (in_hand s);
                 values := q;
                 delivered := delivered s |}
          | None => s
          end
      | None => s
      end
  | Dequeue choice =>
      match Queue.dequeue (values s) choice with
      | Some (x, q) =>
          {| unread := unread s;
             in_hand := in_hand s;
             values := q;
             delivered := delivered s ++ [x] |}
      | None => s
      end
  end.

Definition run (s : state) (schedule : list action) : state :=
  fold_left step schedule s.

(** The runner of a prefetcher over the records the reader will meet, in
    the order it meets them. *)
Definition start (pf : prefetcher) (records : list SequenceExample)
  : state :=
  {| unread := records;
     in_hand := repeat None (enqueue_ops pf);
     values := values_queue pf;
     delivered := [] |}.

(** Every record in the order it entered: delivered, queued, in the hand
    of a thread, not yet read. *)
Definition held (hands : list (option SequenceExample))
  : list SequenceExample :=
  flat_map (fun h => match h with Some x => [x] | None => [] end) hands.

Definition flow (s : state) : list SequenceExample :=
  delivered s ++ q_items (values s) ++ held (in_hand s) ++ unread s.

(** The records one pass over the shards meets: the contents of the shards
    in the order the shard name queue hands the names out. *)
Definition one_pass (pf : prefetcher)
           (contents : string -> list SequenceExample)
           (perm : list string -> list string) : list SequenceExample :=
  flat_map contents (Queue.epoch_order (filename_queue pf) perm).

End Runner.

(** The integers a 64-bit attribute holds. *)
Definition int64 (v : Z) : Prop := - 2 ^ 63 <= v < 2 ^ 63.

(** ** The statements of the specification, as definitions *)

(** The tuple the batcher is described to derive from one caption of length
    [L]: the caption without its last token, the caption without its first
    token, and [L - 1] ones. *)
Definition shifted_tuple {image : Type} (image_and_caption : image * list Z)
  : image * list Z * list Z * list Z :=
  let (image, caption) := image_and_caption in
  let L := List.length caption in
  (image, py_slice caption 0 (L - 1), py_slice caption 1 L,
   repeat 1 (L - 1)%nat).

(** The longest input sequence among the captions of one batch. *)
Definition max_input_length {image : Type}
           (images_and_captions : list (image * list Z)) : nat :=
  list_max (map (fun e => (List.length (snd e) - 1)%nat) images_and_captions).

(** The multi-hot vector of a given width over the distinct ids of a row. *)
Definition multi_hot (width : Z) (row : list Z) : list Q :=
  map (fun j => if existsb (Z.eqb (Z.of_nat j)) row then 1%Q else 0%Q)
      (seq 0 (Z.to_nat width)).

(** The attributes target as the specification words it: the multi-hot
    vector of width [vocab_size] over the row, times the mask. *)
Definition attributes_target_spec (vocab_size : Z) (row : list Z)
           (mask : tensor) : result tensor :=
  Broadcast.mul (multi_hot vocab_size row) (Broadcast.to_float mask).

(** ** A small configuration to run the definitions on *)

Definition example_flags (workers : Z) (flip : bool) : Flags :=
  {| input_file_pattern := "train-?????-of-00256";
     batch_size := 32;
     values_per_input_shard := 2300;
     input_queue_capacity_factor := 2;
     num_input_reader_threads := 1;
     num_preprocess_threads := workers;
     support_flip := flip;
     image_feature_name := "image/data";
     caption_feature_name := "image/caption_ids";
     flip_caption_feature_name := Some "image/flip_caption_ids"%string;
     vocab_size := 12000 |}.

Definition example_record : SequenceExample :=
  {| context := [("image/data", "jpeg")]%string;
     feature_lists := [("image/caption_ids"%string, [1; 5; 6; 2]);
                       ("image/flip_caption_ids"%string, [1; 7; 6; 2])] |}.

Definition other_record : SequenceExample :=
  {| context := [("image/data", "png")]%string;
     feature_lists := [("image/caption_ids"%string, [1; 8; 2]);
                       ("image/flip_caption_ids"%string, [1; 9; 2])] |}.

(** An image processor that records how it was called. *)
Definition traced_image (encoded_image : string) (thread_id : Z)
           (flip is_training : bool) : string * Z * bool * bool :=
  (encoded_image, thread_id, flip, is_training).

Definition one_file (pattern : string) : list string := [pattern].

(** ** Results and lists *)

Lemma mapM_total {A B : Type} (f : A -> result B) (g : A -> B) (l : list A) :
  Forall (fun x => f x = Ok (g x)) l -> mapM f l = Ok (map g l).
Proof.
  induction 1 as [|x xs Hx _ IH]; simpl; [reflexivity|].
  rewrite Hx; simpl. rewrite IH; reflexivity.
Qed.

Lemma mapM_Ok_inv {A B : Type} (f : A -> result B) (l : list A) :
  forall ys, mapM f l = Ok ys -> Forall2 (fun x y => f x = Ok y) l ys.
Proof.
  induction l as [|x xs IH]; simpl; intros ys H.
  - injection H as <-. constructor.
  - destruct (f x) as [y|e] eqn:Hx; simpl in H; [|discriminate].
    destruct (mapM f xs) as [ys'|e] eqn:Hxs; simpl in H; [|discriminate].
    injection H as <-. constructor; auto.
Qed.

Lemma mapM_Err_in {A B : Type} (f : A -> result B) (l : list A) x :
  In x l -> is_ok (f x) = false -> is_ok (mapM f l) = false.
Proof.
  induction l as [|y ys IH]; simpl; [tauto|].
  intros [->|Hin] Hx.
  - destruct (f x); [discriminate|reflexivity].
  - destruct (f y); simpl; [|reflexivity].
    specialize (IH Hin Hx). destruct (mapM f ys); [discriminate|reflexivity].
Qed.

Lemma sumZ_app (u v : list Z) : sumZ (u ++ v) = sumZ u + sumZ v.
Proof. induction u as [|x u IH]; simpl; [reflexivity|]. rewrite IH. lia. Qed.

Lemma sumZ_repeat (x : Z) (n : nat) : sumZ (repeat x n) = Z.of_nat n * x.
Proof. induction n as [|n IH]; [reflexivity|]. cbn [repeat sumZ fold_right].
  fold (sumZ (repeat x n)). rewrite IH. lia. Qed.

Lemma nth_repeat_default {A : Type} (x : A) (n j : nat) :
  nth j (repeat x n) x = x.
Proof.
  revert j; induction n as [|n IH]; intros [|j]; simpl; auto.
Qed.

(** ** The ops behind the batcher *)

Lemma slice_front {A : Type} (l : list A) :
  (1 <= List.length l)%nat ->
  TF.slice l 0 (TF.shape0 l - 1) = Ok (py_slice l 0 (List.length l - 1)).
Proof.
  intros HL. unfold TF.slice, TF.shape0, py_slice.
  destruct (Z.eqb_spec (Z.of_nat (List.length l) - 1) (-1)) as [E|_]; [lia|].
  replace ((0 <=? 0) && (0 <=? Z.of_nat (List.length l) - 1)
           && (0 + (Z.of_nat (List.length l) - 1)
               <=? Z.of_nat (List.length l))) with true
    by (symmetry; rewrite !andb_true_iff, !Z.leb_le; lia).
  replace (Z.to_nat (Z.of_nat (List.length l) - 1))
    with (List.length l - 1)%nat by lia.
  rewrite Nat.sub_0_r. reflexivity.
Qed.

Lemma slice_back {A : Type} (l : list A) :
  (1 <= List.length l)%nat ->
  TF.slice l 1 (TF.shape0 l - 1) = Ok (py_slice l 1 (List.length l)).
Proof.
  intros HL. unfold TF.slice, TF.shape0, py_slice.
  destruct (Z.eqb_spec (Z.of_nat (List.length l) - 1) (-1)) as [E|_]; [lia|].
  replace ((0 <=? 1) && (0 <=? Z.of_nat (List.length l) - 1)
           && (1 + (Z.of_nat (List.length l) - 1)
               <=? Z.of_nat (List.length l))) with true
    by (symmetry; rewrite !andb_true_iff, !Z.leb_le; lia).
  replace (Z.to_nat (Z.of_nat (List.length l) - 1))
    with (List.length l - 1)%nat by lia.
  reflexivity.
Qed.

Lemma ones_input_length (n : nat) :
  (1 <= n)%nat -> TF.ones (Z.of_nat n - 1) = Ok (repeat 1 (n - 1)%nat).
Proof.
  intros Hn. unfold TF.ones.
  destruct (Z.leb_spec 0 (Z.of_nat n - 1)); [|lia].
  replace (Z.to_nat (Z.of_nat n - 1)) with (n - 1)%nat by lia. reflexivity.
Qed.

Lemma enqueue_tuple_shifted {image : Type} (e : image * list Z) :
  (1 <= List.length (snd e))%nat -> enqueue_tuple e = Ok (shifted_tuple e).
Proof.
  destruct e as [img cap]; simpl; intros HL.
  unfold enqueue_tuple, shifted_tuple.
  rewrite (slice_front cap HL); simpl.
  rewrite (slice_back cap HL); simpl.
  unfold TF.shape0. rewrite (ones_input_length _ HL); reflexivity.
Qed.

Lemma enqueue_tuple_empty {image : Type} (img : image) :
  is_ok (enqueue_tuple (img, [])) = false.
Proof. reflexivity. Qed.

Lemma enqueue_tuple_Ok_length {image : Type} (e : image * list Z) t :
  enqueue_tuple e = Ok t -> (1 <= List.length (snd e))%nat.
Proof.
  destruct e as [img [|x cap]]; intros H; [|simpl; lia].
  pose proof (enqueue_tuple_empty img) as E. rewrite H in E. discriminate.
Qed.

Lemma py_slice_front_length {A : Type} (l : list A) :
  List.length (py_slice l 0 (List.length l - 1)) = (List.length l - 1)%nat.
Proof.
  unfold py_slice. rewrite Nat.sub_0_r. simpl.
  rewrite length_firstn. lia.
Qed.

Lemma py_slice_back_length {A : Type} (l : list A) :
  List.length (py_slice l 1 (List.length l)) = (List.length l - 1)%nat.
Proof.
  unfold py_slice. rewrite length_firstn, length_skipn. lia.
Qed.

(** ** The batcher, row by row *)

Section BatcherFacts.

Variable image : Type.
Implicit Types (exs : list (image * list Z)) (b : Batch image).

Lemma batch_total exs :
  Forall (fun e => (1 <= List.length (snd e))%nat) exs ->
  batch_with_dynamic_pad exs = Ok (batch_join (map shifted_tuple exs)).
Proof.
  intros H. unfold batch_with_dynamic_pad.
  rewrite (mapM_total enqueue_tuple shifted_tuple); [reflexivity|].
  eapply Forall_impl; [|exact H].
  intros e He. now apply enqueue_tuple_shifted.
Qed.

Lemma batch_Ok_lengths exs b :
  batch_with_dynamic_pad exs = Ok b ->
  Forall (fun e => (1 <= List.length (snd e))%nat) exs.
Proof.
  unfold batch_with_dynamic_pad.
  destruct (mapM enqueue_tuple exs) as [ts|err] eqn:E; [|discriminate].
  intros _. apply mapM_Ok_inv in E.
  induction E as [|e t exs' ts' He _ IH]; constructor; auto.
  eapply enqueue_tuple_Ok_length; eauto.
Qed.

Lemma batch_Ok_shifted exs b :
  batch_with_dynamic_pad exs = Ok b ->
  b = batch_join (map shifted_tuple exs).
Proof.
  intros H. pose proof (batch_Ok_lengths _ _ H) as HL.
  rewrite (batch_total _ HL) in H. now injection H.
Qed.

Lemma batch_empty_caption exs img :
  In (img, []) exs -> is_ok (batch_with_dynamic_pad exs) = false.
Proof.
  intros Hin. unfold batch_with_dynamic_pad.
  pose proof (mapM_Err_in enqueue_tuple exs (img, []) Hin
                          (enqueue_tuple_empty img)) as E.
  destruct (mapM enqueue_tuple exs); [discriminate|reflexivity].
Qed.

Lemma input_lengths exs :
  map (@List.length Z)
      (map (fun t : image * list Z * list Z * list Z => snd (fst (fst t)))
           (map shifted_tuple exs))
  = map (fun e => (List.length (snd e) - 1)%nat) exs.
Proof.
  rewrite !map_map. apply map_ext. intros [img cap]; simpl.
  apply py_slice_front_length.
Qed.

Lemma target_lengths exs :
  map (@List.length Z)
      (map (fun t : image * list Z * list Z * list Z => snd (fst t))
           (map shifted_tuple exs))
  = map (fun e => (List.length (snd e) - 1)%nat) exs.
Proof.
  rewrite !map_map. apply map_ext. intros [img cap]; simpl.
  apply py_slice_back_length.
Qed.

Lemma indicator_lengths exs :
  map (@List.length Z)
      (map (fun t : image * list Z * list Z * list Z => snd t)
           (map shifted_tuple exs))
  = map (fun e => (List.length (snd e) - 1)%nat) exs.
Proof.
  rewrite !map_map. apply map_ext. intros [img cap]; simpl.
  apply repeat_length.
Qed.

(** The three padded rows of the example at position [i]. *)
Lemma batch_join_rows exs i img cap :
  nth_error exs i = Some (img, cap) ->
  let L := List.length cap in
  let P := max_input_length exs in
  let b := batch_join (map shifted_tuple exs) in
  nth_error (input_seqs b) i
    = Some (py_slice cap 0 (L - 1) ++ repeat 0 (P - (L - 1))%nat)
  /\ nth_error (target_seqs b) i
    = Some (py_slice cap 1 L ++ repeat 0 (P - (L - 1))%nat)
  /\ nth_error (mask b) i
    = Some (repeat 1 (L - 1)%nat ++ repeat 0 (P - (L - 1))%nat).
Proof.
  intros Hi L P b. subst b. unfold batch_join; simpl.
  unfold TF.dynamic_pad.
  rewrite input_lengths, target_lengths, indicator_lengths.
  fold (max_input_length exs). fold P.
  rewrite !nth_error_map, Hi; simpl. unfold TF.pad_to.
  rewrite py_slice_front_length, py_slice_back_length, repeat_length.
  auto.
Qed.

Lemma max_input_length_bound exs e :
  In e exs -> (List.length (snd e) - 1 <= max_input_length exs)%nat.
Proof.
  intros Hin. unfold max_input_length.
  pose proof (proj1 (list_max_le
    (map (fun e => (List.length (snd e) - 1)%nat) exs) _) (le_n _)) as H.
  rewrite Forall_forall in H. apply H.
  apply in_map_iff. exists e; auto.
Qed.

Lemma max_input_length_attained exs :
  exs <> [] ->
  exists e, In e exs
            /\ max_input_length exs = (List.length (snd e) - 1)%nat.
Proof.
  intros Hne. unfold max_input_length.
  assert (Hm : map (fun e : image * list Z =>
                      (List.length (snd e) - 1)%nat) exs <> []).
  { destruct exs; [congruence|discriminate]. }
  induction exs as [|e exs IH]; [congruence|].
  destruct exs as [|e' exs'].
  - exists e; simpl; split; auto. lia.
  - destruct IH as [e0 [Hin He0]]; try discriminate.
    cbn [map list_max fold_right] in *.
    fold (list_max (map (fun e => (List.length (snd e) - 1)%nat) exs'))
      in *.
    destruct (Nat.max_spec (List.length (snd e) - 1)
      (Nat.max (List.length (snd e') - 1)
         (list_max (map (fun e => (List.length (snd e) - 1)%nat) exs'))))
      as [[_ ->]|[_ ->]].
    + exists e0; split; [right; exact Hin|exact He0].
    + exists e; split; [left; reflexivity|reflexivity].
Qed.

End BatcherFacts.

(** ** Entries of a padded row *)

Lemma padded_real {A : Type} (row pad : list A) (j : nat) :
  (j < List.length row)%nat -> nth_error (row ++ pad) j = nth_error row j.
Proof. apply nth_error_app1. Qed.

Lemma padded_pad (row : list Z) (n j : nat) :
  (List.length row <= j)%nat -> (j < List.length row + n)%nat ->
  nth_error (row ++ repeat 0 n) j = Some 0.
Proof.
  intros H1 H2. rewrite nth_error_app2 by exact H1.
  apply nth_error_repeat. lia.
Qed.

Lemma py_slice_front_nth {A : Type} (l : list A) (j : nat) :
  (j < List.length l - 1)%nat ->
  nth_error (py_slice l 0 (List.length l - 1)) j = nth_error l j.
Proof.
  intros Hj. unfold py_slice. rewrite Nat.sub_0_r. simpl.
  rewrite nth_error_firstn.
  destruct (Nat.ltb_spec j (List.length l - 1)); [reflexivity|lia].
Qed.

Lemma py_slice_back_nth {A : Type} (l : list A) (j : nat) :
  (j < List.length l - 1)%nat ->
  nth_error (py_slice l 1 (List.length l)) j = nth_error l (S j).
Proof.
  intros Hj. unfold py_slice. rewrite nth_error_firstn, nth_error_skipn.
  destruct (Nat.ltb_spec j (List.length l - 1)); [reflexivity|lia].
Qed.

Lemma sumZ_padded_ones (a n : nat) :
  sumZ (repeat 1 a ++ repeat 0 n) = Z.of_nat a.
Proof. rewrite sumZ_app, !sumZ_repeat. lia. Qed.

(** ** The dynamic batcher *)

(** C1. A caption of length [L >= 2] is split into [caption[0:L-1]] and
    [caption[1:L]] with [L-1] ones; alone in a batch these are its rows; in
    any batch that is produced its rows are these, right-padded with zeros,
    and its mask row sums to [L-1].  The caption [1,2,3,4,5] alone gives
    [1,2,3,4], [2,3,4,5] and the mask [1,1,1,1]. *)
Theorem batcher_shifts_and_masks (image : Type) (img : image)
        (caption : list Z) :
  (2 <= List.length caption)%nat ->
  let L := List.length caption in
  enqueue_tuple (img, caption)
    = Ok (img, py_slice caption 0 (L - 1), py_slice caption 1 L,
          repeat 1 (L - 1)%nat)
  /\ batch_with_dynamic_pad [(img, caption)]
     = Ok {| images := [img];
             input_seqs := [py_slice caption 0 (L - 1)];
             target_seqs := [py_slice caption 1 L];
             mask := [repeat 1 (L - 1)%nat] |}
  /\ sumZ (repeat 1 (L - 1)%nat) = Z.of_nat L - 1
  /\ (forall exs b i,
         nth_error exs i = Some (img, caption) ->
         batch_with_dynamic_pad exs = Ok b ->
         exists pad,
           nth_error (input_seqs b) i = Some (py_slice caption 0 (L - 1) ++ pad)
           /\ nth_error (target_seqs b) i = Some (py_slice caption 1 L ++ pad)
           /\ nth_error (mask b) i = Some (repeat 1 (L - 1)%nat ++ pad)
           /\ pad = repeat 0 (max_input_length exs - (L - 1))%nat
           /\ sumZ (repeat 1 (L - 1)%nat ++ pad) = Z.of_nat L - 1)
  /\ batch_with_dynamic_pad [(img, [1; 2; 3; 4; 5])]
     = Ok {| images := [img];
             input_seqs := [[1; 2; 3; 4]];
             target_seqs := [[2; 3; 4; 5]];
             mask := [[1; 1; 1; 1]] |}.
Proof.
  intros HL L.
  assert (H1 : (1 <= List.length (snd (img, caption)))%nat) by (simpl; lia).
  split; [exact (enqueue_tuple_shifted (img, caption) H1)|].
  split.
  { rewrite batch_total by (constructor; [exact H1|constructor]).
    unfold batch_join, TF.dynamic_pad, TF.pad_to, shifted_tuple.
    cbn [map fst snd list_max fold_right]. subst L.
    rewrite py_slice_front_length, py_slice_back_length, repeat_length.
    rewrite !Nat.max_0_r, !Nat.sub_diag.
    cbn [repeat]. rewrite !app_nil_r. reflexivity. }
  split; [rewrite sumZ_repeat; lia|].
  split; [|reflexivity].
  intros exs b i Hi Hb.
  rewrite (batch_Ok_shifted _ _ _ Hb).
  destruct (batch_join_rows _ exs i img caption Hi) as (Hin & Htg & Hm).
  exists (repeat 0 (max_input_length exs - (L - 1))%nat).
  repeat split; try assumption.
  rewrite sumZ_padded_ones. lia.
Qed.

Lemma batcher_shifts_and_masks_witness :
  (2 <= List.length [1; 2; 3; 4; 5])%nat
  /\ enqueue_tuple (tt, [1; 2; 3; 4; 5])
     = Ok (tt, [1; 2; 3; 4], [2; 3; 4; 5], [1; 1; 1; 1]).
Proof.
  split; [simpl; lia|].
  apply (batcher_shifts_and_masks unit tt [1; 2; 3; 4; 5]). simpl; lia.
Defined.

(** C2. In every batch the batcher produces, all rows of the three sequence
    fields have one padded length, the maximum of [L-1] over the captions of
    the batch; the mask row of a caption of length [L] is 1 below position
    [L-1] and 0 from there on, whatever the other rows are; below [L-1] the
    input and target rows carry the caption and its shift, and from [L-1] on
    they hold zero. *)
Theorem batch_padding_and_mask (image : Type)
        (exs : list (image * list Z)) (b : Batch image) :
  batch_with_dynamic_pad exs = Ok b ->
  let P := max_input_length exs in
  (forall e, In e exs -> Z.of_nat (List.length (snd e)) - 1 <= Z.of_nat P)
  /\ (exs <> [] ->
      exists e, In e exs /\ Z.of_nat (List.length (snd e)) - 1 = Z.of_nat P)
  /\ forall i img caption,
      nth_error exs i = Some (img, caption) ->
      let L := Z.of_nat (List.length caption) in
      exists input_row target_row mask_row,
        nth_error (input_seqs b) i = Some input_row
        /\ nth_error (target_seqs b) i = Some target_row
        /\ nth_error (mask b) i = Some mask_row
        /\ List.length input_row = P
        /\ List.length target_row = P
        /\ List.length mask_row = P
        /\ forall j, (j < P)%nat ->
             (Z.of_nat j < L - 1 ->
              nth_error mask_row j = Some 1
              /\ nth_error input_row j = nth_error caption j
              /\ nth_error target_row j = nth_error caption (S j))
             /\ (L - 1 <= Z.of_nat j ->
                 nth_error mask_row j = Some 0
                 /\ nth_error input_row j = Some 0
                 /\ nth_error target_row j = Some 0).
Proof.
  intros Hb P.
  pose proof (batch_Ok_lengths _ _ _ Hb) as Hlen.
  rewrite Forall_forall in Hlen.
  split.
  { intros e He. pose proof (max_input_length_bound _ exs e He).
    pose proof (Hlen e He). fold P in H. lia. }
  split.
  { intros Hne. destruct (max_input_length_attained _ exs Hne) as (e & He & E).
    exists e. split; [exact He|]. pose proof (Hlen e He). fold P in E. lia. }
  intros i img caption Hi L.
  rewrite (batch_Ok_shifted _ _ _ Hb).
  destruct (batch_join_rows _ exs i img caption Hi) as (Hin & Htg & Hm).
  fold P in Hin, Htg, Hm.
  assert (Hmem : In (img, caption) exs) by (eapply nth_error_In; eauto).
  pose proof (Hlen _ Hmem) as HL1; simpl in HL1.
  pose proof (max_input_length_bound _ exs _ Hmem) as HLP.
  fold P in HLP; simpl in HLP.
  do 3 eexists.
  split; [exact Hin|]. split; [exact Htg|]. split; [exact Hm|].
  rewrite !length_app, !repeat_length, py_slice_front_length,
    py_slice_back_length.
  split; [lia|]. split; [lia|]. split; [lia|].
  intros j Hj. subst L. split; intros Hcase.
  - assert (Hj' : (j < List.length caption - 1)%nat) by lia.
    rewrite !padded_real
      by (rewrite ?repeat_length, ?py_slice_front_length,
            ?py_slice_back_length; exact Hj').
    rewrite py_slice_front_nth, py_slice_back_nth by exact Hj'.
    split; [|split; reflexivity].
    apply nth_error_repeat. exact Hj'.
  - repeat split; apply padded_pad;
      rewrite ?repeat_length, ?py_slice_front_length, ?py_slice_back_length;
      lia.
Qed.

Lemma batch_padding_and_mask_witness :
  batch_with_dynamic_pad [(tt, [1; 2; 3; 4; 5]); (tt, [1; 2; 3])]
    = Ok {| images := [tt; tt];
            input_seqs := [[1; 2; 3; 4]; [1; 2; 0; 0]];
            target_seqs := [[2; 3; 4; 5]; [2; 3; 0; 0]];
            mask := [[1; 1; 1; 1]; [1; 1; 0; 0]] |}
  /\ forall e, In e [(tt, [1; 2; 3; 4; 5]); (tt, [1; 2; 3])] ->
               Z.of_nat (List.length (snd e)) - 1 <= 4.
Proof.
  split; [reflexivity|].
  exact (proj1 (batch_padding_and_mask unit
                  [(tt, [1; 2; 3; 4; 5]); (tt, [1; 2; 3])] _ eq_refl)).
Defined.

(** C4, as the code has it.  A caption of length 1 is not rejected: in a
    batch whose captions all have at least one token the batch is produced,
    and the rows of the one-token caption are nothing but padding, with a
    mask row that is entirely zero. *)
Theorem one_token_caption_row (image : Type)
        (exs : list (image * list Z)) (i : nat) (img : image) (x : Z) :
  Forall (fun e => (1 <= List.length (snd e))%nat) exs ->
  nth_error exs i = Some (img, [x]) ->
  exists b,
    batch_with_dynamic_pad exs = Ok b
    /\ enqueue_tuple (img, [x]) = Ok (img, [], [], [])
    /\ nth_error (input_seqs b) i = Some (repeat 0 (max_input_length exs))
    /\ nth_error (target_seqs b) i = Some (repeat 0 (max_input_length exs))
    /\ nth_error (mask b) i = Some (repeat 0 (max_input_length exs))
    /\ sumZ (repeat 0 (max_input_length exs)) = 0.
Proof.
  intros Hall Hi. eexists. split; [apply batch_total; exact Hall|].
  split; [reflexivity|].
  destruct (batch_join_rows _ exs i img [x] Hi) as (Hin & Htg & Hm).
  simpl in Hin, Htg, Hm. rewrite Nat.sub_0_r in Hin, Htg, Hm.
  repeat split; try assumption.
  rewrite sumZ_repeat. lia.
Qed.

Lemma one_token_caption_row_witness :
  Forall (fun e : unit * list Z => (1 <= List.length (snd e))%nat)
         [(tt, [1; 2; 3]); (tt, [7])]
  /\ exists b,
      batch_with_dynamic_pad [(tt, [1; 2; 3]); (tt, [7])] = Ok b
      /\ nth_error (mask b) 1 = Some [0; 0].
Proof.
  assert (H : Forall (fun e : unit * list Z => (1 <= List.length (snd e))%nat)
                     [(tt, [1; 2; 3]); (tt, [7])])
    by (repeat constructor).
  split; [exact H|].
  destruct (one_token_caption_row unit _ 1%nat tt 7 H eq_refl)
    as (b & Hb & _ & _ & _ & Hm & _).
  exists b. split; [exact Hb|exact Hm].
Defined.

(** C4 as stated fails at the empty caption: the slice of size [-1] that
    begins at position 1 is out of range, and no batch is produced. *)
Lemma empty_caption_rejected :
  (List.length (@nil Z) <= 1)%nat
  /\ batch_with_dynamic_pad [(tt, @nil Z)]
     = Err (InvalidArgumentError "slice: begin or size out of range").
Proof. split; [simpl; lia|reflexivity]. Qed.

(** ** Queues *)

Lemma remove_nth_length {A : Type} (l : list A) (i : nat) :
  (i < List.length l)%nat ->
  List.length (Queue.remove_nth i l) = (List.length l - 1)%nat.
Proof.
  revert i; induction l as [|x l IH]; intros i Hi; simpl in Hi; [lia|].
  destruct i as [|i]; simpl; [lia|].
  rewrite IH by lia. lia.
Qed.

Lemma dequeue_shuffle_floor {A : Type} (q q' : queue A) (m : Z)
      (choice : nat) (x : A) :
  q_kind q = RandomShuffleQueue m ->
  Queue.dequeue q choice = Some (x, q') ->
  m <= Queue.size q'
  /\ Queue.size q' = Queue.size q - 1
  /\ q_kind q' = q_kind q /\ q_capacity q' = q_capacity q.
Proof.
  intros Hk. unfold Queue.dequeue. rewrite Hk.
  destruct (Z.ltb_spec m (Queue.size q)) as [Hm|]; [|discriminate].
  destruct (nth_error (q_items q) (choice mod List.length (q_items q)))
    as [y|] eqn:E; [|discriminate].
  intros H; injection H as <- <-.
  assert (Hi : (choice mod List.length (q_items q)
                < List.length (q_items q))%nat).
  { apply nth_error_Some. congruence. }
  unfold Queue.size in *; simpl. rewrite remove_nth_length by exact Hi.
  repeat split; lia.
Qed.

Lemma dequeue_shuffle_blocked {A : Type} (q : queue A) (m : Z)
      (choice : nat) :
  q_kind q = RandomShuffleQueue m -> Queue.size q <= m ->
  Queue.dequeue q choice = None.
Proof.
  intros Hk Hs. unfold Queue.dequeue. rewrite Hk.
  destruct (Z.ltb_spec m (Queue.size q)); [lia|reflexivity].
Qed.

Lemma dequeue_fifo {A : Type} (q : queue A) (choice : nat) :
  q_kind q = FIFOQueue ->
  Queue.dequeue q choice
  = match q_items q with
    | [] => None
    | x :: rest =>
        Some (x, {| q_kind := FIFOQueue; q_capacity := q_capacity q;
                    q_name := q_name q; q_items := rest |})
    end.
Proof.
  intros Hk. unfold Queue.dequeue. rewrite Hk. reflexivity.
Qed.

Lemma enqueue_bounded {A : Type} (q q' : queue A) (x : A) :
  Queue.enqueue q x = Some q' ->
  Queue.size q' <= q_capacity q
  /\ q_items q' = q_items q ++ [x]
  /\ q_kind q' = q_kind q /\ q_capacity q' = q_capacity q.
Proof.
  unfold Queue.enqueue.
  destruct (Z.ltb_spec (Queue.size q) (q_capacity q)) as [H|]; [|discriminate].
  intros E; injection E as <-. unfold Queue.size in *; simpl.
  rewrite length_app; simpl. repeat split; lia.
Qed.

(** ** The shard prefetcher *)

Lemma int64_attr_Ok (v : Z) : int64 v -> TF.int64_attr v = Ok tt.
Proof.
  unfold int64, TF.int64_attr. intros [H1 H2].
  destruct (Z.leb_spec (- 2 ^ 63) v); [|lia].
  destruct (Z.ltb_spec v (2 ^ 63)); [reflexivity|lia].
Qed.

Lemma int64_attr_Ok_inv (v : Z) (u : unit) :
  TF.int64_attr v = Ok u -> int64 v.
Proof.
  unfold int64, TF.int64_attr.
  destruct (Z.leb_spec (- 2 ^ 63) v); [|discriminate].
  destruct (Z.ltb_spec v (2 ^ 63)); [|discriminate].
  intros _. lia.
Qed.

Lemma fill_summary_Ok (c : Z) : c <> 0 -> TF.fill_summary c = Ok tt.
Proof.
  unfold TF.fill_summary. destruct (Z.eqb_spec c 0); [contradiction|].
  reflexivity.
Qed.

Lemma fill_summary_Ok_inv (c : Z) (u : unit) :
  TF.fill_summary c = Ok u -> c <> 0.
Proof.
  unfold TF.fill_summary. destruct (Z.eqb_spec c 0); [discriminate|auto].
Qed.

Lemma py_range_length (n : Z) : List.length (py_range n) = Z.to_nat n.
Proof. unfold py_range. now rewrite length_map, length_seq. Qed.

Lemma queue_runner_Ok (n : Z) :
  0 < n -> TF.queue_runner (List.length (py_range n)) = Ok tt.
Proof.
  intros H. rewrite py_range_length.
  destruct (Z.to_nat n) eqn:E; [lia|reflexivity].
Qed.

Lemma queue_runner_Ok_inv (n : Z) (u : unit) :
  TF.queue_runner (List.length (py_range n)) = Ok u -> 0 < n.
Proof.
  rewrite py_range_length.
  destruct (Z.to_nat n) eqn:E; [discriminate|lia].
Qed.

Section PrefetchFacts.

Variable Glob : string -> list string.
Variable fatal_aborts : bool.

Lemma prefetch_no_files file_pattern is_training batch_size
      values_per_shard factor readers shard_name value_name :
  data_files_of Glob file_pattern = [] ->
  prefetch_input_data Glob fatal_aborts file_pattern is_training batch_size
                      values_per_shard factor readers shard_name value_name
  = Err (if fatal_aborts
         then FatalLogAbort "Found no input files matching the pattern"
         else ValueError
                "string_input_producer requires a non-null input tensor").
Proof.
  intros H. unfold prefetch_input_data, log_fatal. rewrite H.
  destruct fatal_aborts, is_training; reflexivity.
Qed.

Lemma prefetch_training file_pattern batch_size values_per_shard factor
      readers shard_name value_name :
  data_files_of Glob file_pattern <> [] ->
  0 < readers ->
  int64 (values_per_shard * factor) ->
  int64 (values_per_shard * factor + 100 * batch_size) ->
  values_per_shard * factor + 100 * batch_size <> 0 ->
  prefetch_input_data Glob fatal_aborts file_pattern true batch_size
                      values_per_shard factor readers shard_name value_name
  = Ok {| filename_queue :=
            {| sq_files := data_files_of Glob file_pattern;
               sq_shuffle := true; sq_capacity := 16;
               sq_name := shard_name |};
          values_queue :=
            {| q_kind := RandomShuffleQueue (values_per_shard * factor);
               q_capacity := values_per_shard * factor + 100 * batch_size;
               q_name := "random_" ++ value_name;
               q_items := [] |};
          enqueue_ops := List.length (py_range readers) |}.
Proof.
  intros H Hr Hmin Hcap Hnz. unfold prefetch_input_data.
  destruct (data_files_of Glob file_pattern) as [|f fs]; [congruence|].
  cbn [bind string_input_producer]. unfold new_shuffle_queue.
  rewrite (int64_attr_Ok _ Hcap), (int64_attr_Ok _ Hmin).
  cbn [bind fst snd].
  rewrite (queue_runner_Ok _ Hr), (fill_summary_Ok _ Hnz). reflexivity.
Qed.

Lemma prefetch_training_inv file_pattern batch_size values_per_shard factor
      readers shard_name value_name pf :
  prefetch_input_data Glob fatal_aborts file_pattern true batch_size
                      values_per_shard factor readers shard_name value_name
  = Ok pf ->
  data_files_of Glob file_pattern <> []
  /\ 0 < readers
  /\ int64 (values_per_shard * factor)
  /\ int64 (values_per_shard * factor + 100 * batch_size)
  /\ values_per_shard * factor + 100 * batch_size <> 0
  /\ pf = {| filename_queue :=
               {| sq_files := data_files_of Glob file_pattern;
                  sq_shuffle := true; sq_capacity := 16;
                  sq_name := shard_name |};
             values_queue :=
               {| q_kind := RandomShuffleQueue (values_per_shard * factor);
                  q_capacity := values_per_shard * factor + 100 * batch_size;
                  q_name := "random_" ++ value_name;
                  q_items := [] |};
             enqueue_ops := List.length (py_range readers) |}.
Proof.
  unfold prefetch_input_data, log_fatal.
  destruct (data_files_of Glob file_pattern) as [|f fs] eqn:E.
  - destruct fatal_aborts; discriminate.
  - cbn [bind string_input_producer]. unfold new_shuffle_queue.
    destruct (TF.int64_attr (values_per_shard * factor + 100 * batch_size))
      as [u1|] eqn:E1; cbn [bind]; [|discriminate].
    destruct (TF.int64_attr (values_per_shard * factor)) as [u2|] eqn:E2;
      cbn [bind fst snd]; [|discriminate].
    destruct (TF.queue_runner _) as [u3|] eqn:E3; cbn [bind];
      [|discriminate].
    destruct (TF.fill_summary _) as [u4|] eqn:E4; cbn [bind];
      [|discriminate].
    intros H; injection H as <-.
    split; [discriminate|].
    split; [exact (queue_runner_Ok_inv _ _ E3)|].
    split; [exact (int64_attr_Ok_inv _ _ E2)|].
    split; [exact (int64_attr_Ok_inv _ _ E1)|].
    split; [exact (fill_summary_Ok_inv _ _ E4)|reflexivity].
Qed.

Lemma prefetch_eval file_pattern batch_size values_per_shard factor
      readers shard_name value_name :
  data_files_of Glob file_pattern <> [] ->
  0 < readers ->
  int64 (values_per_shard + 3 * batch_size) ->
  values_per_shard + 3 * batch_size <> 0 ->
  prefetch_input_data Glob fatal_aborts file_pattern false batch_size
                      values_per_shard factor readers shard_name value_name
  = Ok {| filename_queue :=
            {| sq_files := data_files_of Glob file_pattern;
               sq_shuffle := false; sq_capacity := 1;
               sq_name := shard_name |};
          values_queue :=
            {| q_kind := FIFOQueue;
               q_capacity := values_per_shard + 3 * batch_size;
               q_name := "fifo_" ++ value_name;
               q_items := [] |};
          enqueue_ops := List.length (py_range readers) |}.
Proof.
  intros H Hr Hcap Hnz. unfold prefetch_input_data.
  destruct (data_files_of Glob file_pattern) as [|f fs]; [congruence|].
  cbn [bind string_input_producer]. unfold new_fifo_queue.
  rewrite (int64_attr_Ok _ Hcap). cbn [bind fst snd].
  rewrite (queue_runner_Ok _ Hr), (fill_summary_Ok _ Hnz). reflexivity.
Qed.

Lemma prefetch_eval_inv file_pattern batch_size values_per_shard factor
      readers shard_name value_name pf :
  prefetch_input_data Glob fatal_aborts file_pattern false batch_size
                      values_per_shard factor readers shard_name value_name
  = Ok pf ->
  data_files_of Glob file_pattern <> []
  /\ 0 < readers
  /\ int64 (values_per_shard + 3 * batch_size)
  /\ values_per_shard + 3 * batch_size <> 0
  /\ pf = {| filename_queue :=
               {| sq_files := data_files_of Glob file_pattern;
                  sq_shuffle := false; sq_capacity := 1;
                  sq_name := shard_name |};
             values_queue :=
               {| q_kind := FIFOQueue;
                  q_capacity := values_per_shard + 3 * batch_size;
                  q_name := "fifo_" ++ value_name;
                  q_items := [] |};
             enqueue_ops := List.length (py_range readers) |}.
Proof.
  unfold prefetch_input_data, log_fatal.
  destruct (data_files_of Glob file_pattern) as [|f fs] eqn:E.
  - destruct fatal_aborts; discriminate.
  - cbn [bind string_input_producer]. unfold new_fifo_queue.
    destruct (TF.int64_attr (values_per_shard + 3 * batch_size))
      as [u1|] eqn:E1; cbn [bind fst snd]; [|discriminate].
    destruct (TF.queue_runner _) as [u3|] eqn:E3; cbn [bind];
      [|discriminate].
    destruct (TF.fill_summary _) as [u4|] eqn:E4; cbn [bind];
      [|discriminate].
    intros H; injection H as <-.
    split; [discriminate|].
    split; [exact (queue_runner_Ok_inv _ _ E3)|].
    split; [exact (int64_attr_Ok_inv _ _ E1)|].
    split; [exact (fill_summary_Ok_inv _ _ E4)|reflexivity].
Qed.

End PrefetchFacts.

(** ** Building the pipeline *)

Lemma odd_fails_assert (n : Z) :
  Z.odd n = true -> py_assert (n mod 2 =? 0) = Err AssertionError.
Proof.
  intros H. rewrite Zmod_odd, H. reflexivity.
Qed.

Lemma even_passes_assert (n : Z) :
  Z.odd n = false -> py_assert (n mod 2 =? 0) = Ok tt.
Proof.
  intros H. rewrite Zmod_odd, H. reflexivity.
Qed.

Lemma Forall2_nth_error_right {A B : Type} (R : A -> B -> Prop)
      (l : list A) (l' : list B) :
  Forall2 R l l' ->
  forall i y, nth_error l' i = Some y ->
              exists x, nth_error l i = Some x /\ R x y.
Proof.
  induction 1 as [|x y l l' Hxy _ IH]; intros i z Hi.
  - destruct i; discriminate.
  - destruct i as [|i]; simpl in Hi.
    + injection Hi as <-. exists x; auto.
    + apply IH; exact Hi.
Qed.

Lemma py_range_nth (n : Z) (i : nat) (x : Z) :
  nth_error (py_range n) i = Some x -> x = Z.of_nat i.
Proof.
  unfold py_range. rewrite nth_error_map, nth_error_seq.
  destruct (i <? Z.to_nat n)%nat; simpl; [|discriminate].
  intros H; injection H as <-. reflexivity.
Qed.

Section PipelineFacts.

Variable image : Type.
Variable simple_process_image : string -> Z -> bool -> bool -> image.
Variable Glob : string -> list string.
Variable fatal_aborts : bool.

Lemma pipeline_prefetch_error FLAGS is_training e :
  prefetch_input_data Glob fatal_aborts (input_file_pattern FLAGS)
    is_training (batch_size FLAGS) (values_per_input_shard FLAGS)
    (input_queue_capacity_factor FLAGS) (num_input_reader_threads FLAGS)
    "filename_queue" "input_queue" = Err e ->
  get_images_and_captions simple_process_image Glob fatal_aborts FLAGS
                          is_training = Err e.
Proof.
  intros H. unfold get_images_and_captions. rewrite H. reflexivity.
Qed.

Lemma pipeline_odd_threads FLAGS is_training :
  Z.odd (num_preprocess_threads FLAGS) = true ->
  is_ok (get_images_and_captions simple_process_image Glob fatal_aborts
                                 FLAGS is_training) = false
  /\ forall pf,
      prefetch_input_data Glob fatal_aborts (input_file_pattern FLAGS)
        is_training (batch_size FLAGS) (values_per_input_shard FLAGS)
        (input_queue_capacity_factor FLAGS) (num_input_reader_threads FLAGS)
        "filename_queue" "input_queue" = Ok pf ->
      get_images_and_captions simple_process_image Glob fatal_aborts FLAGS
                              is_training = Err AssertionError.
Proof.
  intros Hodd. unfold get_images_and_captions.
  destruct (prefetch_input_data Glob fatal_aborts (input_file_pattern FLAGS)
              is_training (batch_size FLAGS) (values_per_input_shard FLAGS)
              (input_queue_capacity_factor FLAGS)
              (num_input_reader_threads FLAGS)
              "filename_queue" "input_queue") as [pf|e]; cbn [bind].
  - rewrite (odd_fails_assert _ Hodd). cbn [bind]. split; [reflexivity|].
    intros; reflexivity.
  - split; [reflexivity|]. intros pf H; discriminate.
Qed.

Lemma pipeline_Ok_inv FLAGS is_training p :
  get_images_and_captions simple_process_image Glob fatal_aborts FLAGS
                          is_training = Ok p ->
  prefetch_input_data Glob fatal_aborts (input_file_pattern FLAGS)
    is_training (batch_size FLAGS) (values_per_input_shard FLAGS)
    (input_queue_capacity_factor FLAGS) (num_input_reader_threads FLAGS)
    "filename_queue" "input_queue" = Ok (input_queue p)
  /\ mapM (preprocess_thread simple_process_image FLAGS is_training)
          (py_range (num_preprocess_threads FLAGS)) = Ok (threads p)
  /\ threads p <> []
  /\ Z.odd (num_preprocess_threads FLAGS) = false
  /\ queue_capacity p
     = 2 * num_preprocess_threads FLAGS * batch_size FLAGS
  /\ run_batch p
     = (fun jobs =>
          do examples <- mapM (run_thread (threads p)) jobs;
          batch_with_dynamic_pad examples).
Proof.
  unfold get_images_and_captions.
  destruct (prefetch_input_data _ _ _ _ _ _ _ _ _ _) as [pf|e];
    cbn [bind]; [|discriminate].
  destruct (Z.odd (num_preprocess_threads FLAGS)) eqn:Hodd.
  { rewrite (odd_fails_assert _ Hodd). discriminate. }
  rewrite (even_passes_assert _ Hodd). cbn [bind].
  destruct (mapM _ _) as [ops|e] eqn:E; cbn [bind]; [|discriminate].
  unfold batch_and_pad. destruct ops as [|op ops]; [discriminate|].
  destruct (TF.int64_attr _) as [u1|]; cbn [bind]; [|discriminate].
  destruct (TF.fill_summary _) as [u2|]; cbn [bind]; [|discriminate].
  intros H; injection H as <-. cbn.
  repeat split; auto. discriminate.
Qed.

Lemma pipeline_threads FLAGS is_training p :
  get_images_and_captions simple_process_image Glob fatal_aborts FLAGS
                          is_training = Ok p ->
  Forall2 (fun thread_id op =>
             preprocess_thread simple_process_image FLAGS is_training
                               thread_id = Ok op)
          (py_range (num_preprocess_threads FLAGS)) (threads p).
Proof.
  intros Hp. apply pipeline_Ok_inv in Hp.
  destruct Hp as (_ & Hops & _). apply mapM_Ok_inv. exact Hops.
Qed.

End PipelineFacts.

(** C3. When the comma-separated patterns expand to no file at all, building
    the prefetcher fails, and with it the construction of the whole pipeline:
    no queue, no reader and no batch tensor exists, so no record is read and
    no batch, empty or not, is produced. *)
Theorem empty_shard_set_is_fatal (image : Type)
        (simple_process_image : string -> Z -> bool -> bool -> image)
        (Glob : string -> list string) (fatal_aborts : bool)
        (file_pattern : string) :
  data_files_of Glob file_pattern = [] ->
  let e := if fatal_aborts
           then FatalLogAbort "Found no input files matching the pattern"
           else ValueError
                  "string_input_producer requires a non-null input tensor" in
  (forall is_training batch_size values_per_shard factor readers
          shard_name value_name,
      prefetch_input_data Glob fatal_aborts file_pattern is_training
                          batch_size values_per_shard factor readers
                          shard_name value_name = Err e)
  /\ (forall FLAGS is_training,
         input_file_pattern FLAGS = file_pattern ->
         get_images_and_captions simple_process_image Glob fatal_aborts
                                 FLAGS is_training = Err e).
Proof.
  intros H e. split.
  - intros. apply prefetch_no_files; exact H.
  - intros FLAGS is_training <-. apply pipeline_prefetch_error.
    apply prefetch_no_files; exact H.
Qed.

Lemma empty_shard_set_is_fatal_witness :
  data_files_of (fun _ => []) "/data/train-?????-of-00256,/data/val-*" = []
  /\ prefetch_input_data (fun _ => []) false
       "/data/train-?????-of-00256,/data/val-*" true 32 2300 16 1
       "filename_queue" "input_queue"
     = Err (ValueError
              "string_input_producer requires a non-null input tensor").
Proof.
  split; [reflexivity|].
  apply (empty_shard_set_is_fatal unit (fun _ _ _ _ => tt) (fun _ => []) false
           "/data/train-?????-of-00256,/data/val-*" eq_refl).
Defined.

(** C6. Whenever the prefetcher is built in training mode, the value queue
    is a shuffling queue of capacity
    [values_per_shard * capacity_factor + 100 * batch_size]; a dequeue goes
    through only while more than [values_per_shard * capacity_factor] records
    are held, so at least that many remain after it; the shard names come
    from a shuffling producer of capacity 16.  The prefetcher is built when
    the shard set is not empty, there is at least one reader thread, the
    batch size is positive, the shard size estimate and the capacity factor
    are not negative and the capacity is below [2^63]. *)
Theorem training_queue_sizes (Glob : string -> list string)
        (fatal_aborts : bool) (file_pattern : string)
        (batch_size values_per_shard capacity_factor readers : Z)
        (shard_name value_name : string) :
  (forall pf,
      prefetch_input_data Glob fatal_aborts file_pattern true batch_size
                          values_per_shard capacity_factor readers
                          shard_name value_name = Ok pf ->
      q_capacity (values_queue pf)
      = values_per_shard * capacity_factor + 100 * batch_size
      /\ q_kind (values_queue pf)
         = RandomShuffleQueue (values_per_shard * capacity_factor)
      /\ sq_shuffle (filename_queue pf) = true
      /\ sq_capacity (filename_queue pf) = 16
      /\ (forall (q q' : queue SequenceExample) choice x,
             q_kind q = q_kind (values_queue pf) ->
             Queue.dequeue q choice = Some (x, q') ->
             values_per_shard * capacity_factor <= Queue.size q')
      /\ (forall (q : queue SequenceExample) choice,
             q_kind q = q_kind (values_queue pf) ->
             Queue.size q <= values_per_shard * capacity_factor ->
             Queue.dequeue q choice = None))
  /\ (data_files_of Glob file_pattern <> [] ->
      0 < readers ->
      0 < batch_size ->
      0 <= values_per_shard ->
      0 <= capacity_factor ->
      values_per_shard * capacity_factor + 100 * batch_size < 2 ^ 63 ->
      exists pf,
        prefetch_input_data Glob fatal_aborts file_pattern true batch_size
                            values_per_shard capacity_factor readers
                            shard_name value_name = Ok pf).
Proof.
  split.
  - intros pf Hpf. apply prefetch_training_inv in Hpf.
    destruct Hpf as (_ & _ & _ & _ & _ & ->). cbn.
    repeat split.
    + intros q q' choice x Hk Hd.
      exact (proj1 (dequeue_shuffle_floor q q' _ choice x Hk Hd)).
    + intros q choice Hk Hs. eapply dequeue_shuffle_blocked; eauto.
  - intros. eexists. apply prefetch_training; unfold int64; auto; nia.
Qed.

Lemma training_queue_sizes_witness :
  data_files_of (fun p => [p]) "train-00000-of-00002,train-00001-of-00002"
    <> []
  /\ exists pf,
      prefetch_input_data (fun p => [p]) false
        "train-00000-of-00002,train-00001-of-00002" true 32 2300 16 1
        "filename_queue" "input_queue" = Ok pf
      /\ q_capacity (values_queue pf) = 40000.
Proof.
  assert (H : data_files_of (fun p => [p])
                "train-00000-of-00002,train-00001-of-00002" <> [])
    by (vm_compute; discriminate).
  split; [exact H|].
  destruct (training_queue_sizes (fun p => [p]) false
              "train-00000-of-00002,train-00001-of-00002" 32 2300 16 1
              "filename_queue" "input_queue") as (Hprops & Hbuilt).
  destruct Hbuilt as (pf & Hpf); [exact H|lia|lia|lia|lia|lia|].
  exists pf. split; [exact Hpf|].
  exact (proj1 (Hprops pf Hpf)).
Defined.

(** ** The order of the records in evaluation mode *)

Lemma set_nth_head {A : Type} (x h : A) : Runner.set_nth 0 x [h] = [x].
Proof. reflexivity. Qed.

(** With one thread and a first-in-first-out queue no step changes the
    order in which the records pass. *)
Lemma runner_step_keeps_flow (s : Runner.state) (a : Runner.action) :
  q_kind (Runner.values s) = FIFOQueue ->
  (exists h, Runner.in_hand s = [h]) ->
  q_kind (Runner.values (Runner.step s a)) = FIFOQueue
  /\ (exists h, Runner.in_hand (Runner.step s a) = [h])
  /\ Runner.flow (Runner.step s a) = Runner.flow s.
Proof.
  intros Hk (h & Hh). destruct a as [t|choice]; cbn [Runner.step].
  - rewrite Hh. destruct t as [|t]; cbn [nth_error].
    + destruct h as [x|].
      * destruct (Queue.enqueue (Runner.values s) x) as [q|] eqn:E;
          [|split; [exact Hk|split; [eauto|reflexivity]]].
        destruct (enqueue_bounded _ _ _ E) as (_ & Hitems & Hkind & _).
        cbn. split; [congruence|]. split; [eauto|].
        unfold Runner.flow; cbn. rewrite Hitems, Hh. cbn.
        now rewrite <- !app_assoc.
      * destruct (Runner.unread s) as [|x rest] eqn:Hu;
          [split; [exact Hk|split; [eauto|reflexivity]]|].
        cbn. split; [exact Hk|]. split; [eauto|].
        unfold Runner.flow; cbn. rewrite Hh, Hu. reflexivity.
    + assert (E : nth_error (@nil (option SequenceExample)) t = None)
        by (destruct t; reflexivity).
      rewrite E. split; [exact Hk|split; [eauto|reflexivity]].
  - rewrite (dequeue_fifo _ choice Hk).
    destruct (q_items (Runner.values s)) as [|x rest] eqn:Hq;
      [split; [exact Hk|split; [eauto|reflexivity]]|].
    cbn. split; [reflexivity|]. split; [eauto|].
    unfold Runner.flow; cbn. rewrite Hq. now rewrite <- !app_assoc.
Qed.

Lemma runner_run_keeps_flow (schedule : list Runner.action) :
  forall s,
    q_kind (Runner.values s) = FIFOQueue ->
    (exists h, Runner.in_hand s = [h]) ->
    Runner.flow (Runner.run s schedule) = Runner.flow s.
Proof.
  induction schedule as [|a schedule IH]; intros s Hk Hh; [reflexivity|].
  cbn [Runner.run fold_left].
  destruct (runner_step_keeps_flow s a Hk Hh) as (Hk' & Hh' & Hflow).
  fold (Runner.run (Runner.step s a) schedule).
  rewrite (IH _ Hk' Hh'). exact Hflow.
Qed.

(** C7, as the code has it.  Whenever the prefetcher is built in evaluation
    mode, the shard names come from a producer that does not shuffle, so a
    pass hands them out in the order of the shard set, and the value queue is
    first-in-first-out with capacity [values_per_shard + 3 * batch_size]: a
    dequeue takes the oldest record, whatever choice a scheduler makes.  With
    one reader thread the records are delivered in the order the reader
    meets them, however the thread and the consumer are scheduled.  The
    prefetcher is built when the shard set is not empty, there is at least
    one reader thread, the batch size is positive, the shard size estimate
    is not negative and the capacity is below [2^63]. *)
Theorem eval_queue_is_fifo (Glob : string -> list string)
        (fatal_aborts : bool) (file_pattern : string)
        (batch_size values_per_shard capacity_factor readers : Z)
        (shard_name value_name : string) :
  (forall pf,
      prefetch_input_data Glob fatal_aborts file_pattern false batch_size
                          values_per_shard capacity_factor readers
                          shard_name value_name = Ok pf ->
      sq_shuffle (filename_queue pf) = false
      /\ (forall perm,
             Queue.epoch_order (filename_queue pf) perm
             = data_files_of Glob file_pattern)
      /\ q_kind (values_queue pf) = FIFOQueue
      /\ q_capacity (values_queue pf) = values_per_shard + 3 * batch_size
      /\ (forall (q : queue SequenceExample) c1 c2,
             q_kind q = q_kind (values_queue pf) ->
             Queue.dequeue q c1 = Queue.dequeue q c2)
      /\ (forall (q : queue SequenceExample) choice x rest,
             q_kind q = q_kind (values_queue pf) ->
             q_items q = x :: rest ->
             exists q', Queue.dequeue q choice = Some (x, q')
                        /\ q_items q' = rest)
      /\ (readers = 1 ->
          forall contents perm schedule,
            Runner.one_pass pf contents perm
            = flat_map contents (data_files_of Glob file_pattern)
            /\ exists rest,
                Runner.delivered
                  (Runner.run
                     (Runner.start pf (Runner.one_pass pf contents perm))
                     schedule) ++ rest
                = Runner.one_pass pf contents perm))
  /\ (data_files_of Glob file_pattern <> [] ->
      0 < readers ->
      0 < batch_size ->
      0 <= values_per_shard ->
      values_per_shard + 3 * batch_size < 2 ^ 63 ->
      exists pf,
        prefetch_input_data Glob fatal_aborts file_pattern false batch_size
                            values_per_shard capacity_factor readers
                            shard_name value_name = Ok pf).
Proof.
  split.
  - intros pf Hpf. apply prefetch_eval_inv in Hpf.
    destruct Hpf as (_ & _ & _ & _ & ->).
    split; [reflexivity|]. split; [reflexivity|].
    split; [reflexivity|]. split; [reflexivity|].
    split; [|split].
    + intros q c1 c2 Hk. rewrite !dequeue_fifo by exact Hk. reflexivity.
    + intros q choice x rest Hk Hq. rewrite dequeue_fifo by exact Hk.
      rewrite Hq. eexists; split; reflexivity.
    + intros -> contents perm schedule. split; [reflexivity|].
      match goal with
      | |- exists rest,
            Runner.delivered (Runner.run (Runner.start ?pf ?records) _)
            ++ rest = _ =>
          set (s0 := Runner.start pf records);
          assert (Hflow : Runner.flow (Runner.run s0 schedule)
                          = Runner.flow s0)
            by (apply runner_run_keeps_flow;
                [reflexivity|exists None; reflexivity])
      end.
      exists (q_items (Runner.values (Runner.run s0 schedule))
              ++ Runner.held (Runner.in_hand (Runner.run s0 schedule))
              ++ Runner.unread (Runner.run s0 schedule)).
      change (Runner.flow (Runner.run s0 schedule) = Runner.flow s0).
      exact Hflow.
  - intros. eexists. apply prefetch_eval; unfold int64; auto; lia.
Qed.

Lemma eval_queue_is_fifo_witness :
  data_files_of (fun p => [p]) "val-00000-of-00004" <> []
  /\ exists pf,
      prefetch_input_data (fun p => [p]) false "val-00000-of-00004" false
        32 2300 16 1 "filename_queue" "input_queue" = Ok pf
      /\ q_capacity (values_queue pf) = 2396.
Proof.
  assert (H : data_files_of (fun p => [p]) "val-00000-of-00004" <> [])
    by (vm_compute; discriminate).
  split; [exact H|].
  destruct (eval_queue_is_fifo (fun p => [p]) false "val-00000-of-00004"
              32 2300 16 1 "filename_queue" "input_queue")
    as (Hprops & Hbuilt).
  destruct Hbuilt as (pf & Hpf); [exact H|lia|lia|lia|lia|].
  exists pf. split; [exact Hpf|].
  exact (proj1 (proj2 (proj2 (proj2 (Hprops pf Hpf))))).
Defined.

(** C7 as stated fails with two reader threads: two schedules of the same
    prefetcher over the same two records deliver a different record
    first. *)
Lemma eval_order_depends_on_schedule :
  exists pf,
    prefetch_input_data one_file false "val-00000-of-00004" false
      32 2300 16 2 "filename_queue" "input_queue" = Ok pf
    /\ Runner.delivered
         (Runner.run (Runner.start pf [example_record; other_record])
            [Runner.Thread 0; Runner.Thread 0; Runner.Thread 1;
             Runner.Thread 1; Runner.Dequeue 0])
       = [example_record]
    /\ Runner.delivered
         (Runner.run (Runner.start pf [example_record; other_record])
            [Runner.Thread 0; Runner.Thread 1; Runner.Thread 1;
             Runner.Thread 0; Runner.Dequeue 0])
       = [other_record].
Proof.
  eexists. split; [reflexivity|]. split; reflexivity.
Qed.

(** ** Augmentation *)

Lemma less_half_true (u : Q) : (u < 1 # 2)%Q -> less u (1 # 2) = true.
Proof.
  intros H. unfold less.
  destruct (Qle_bool (1 # 2) u) eqn:E; [|reflexivity].
  apply Qle_bool_iff in E. exfalso. exact (Qlt_not_le _ _ H E).
Qed.

Lemma less_half_false (u : Q) : ~ (u < 1 # 2)%Q -> less u (1 # 2) = false.
Proof.
  intros H. unfold less.
  destruct (Qle_bool (1 # 2) u) eqn:E; [reflexivity|].
  exfalso. apply H. apply Qnot_le_lt. intros Hle.
  apply Qle_bool_iff in Hle. congruence.
Qed.

Lemma parse_with_flip_feature serialized image_feature caption_feature
      flip_feature encoded_image caption flip_caption :
  truthy flip_feature = true ->
  parse_sequence_example serialized image_feature caption_feature flip_feature
    = Ok (encoded_image, caption, flip_caption) ->
  exists c, flip_caption = Some c.
Proof.
  intros Ht. unfold parse_sequence_example. rewrite Ht.
  destruct flip_feature as [name|]; [|discriminate].
  destruct (require image_feature _); simpl; [|discriminate].
  destruct (require caption_feature _); simpl; [|discriminate].
  destruct (require name _) as [c|]; simpl; [|discriminate].
  intros H; injection H as _ _ <-. eauto.
Qed.

(** C5. With flip support on, every example a preprocessing thread produces
    is decided by the value drawn for that example: below one half it is the
    flipped image with the flip caption, otherwise the unflipped image with
    the caption; no other pairing is produced. *)
Theorem flip_selects_matching_pair (image : Type)
        (simple_process_image : string -> Z -> bool -> bool -> image)
        (Glob : string -> list string) (fatal_aborts : bool)
        (FLAGS : Flags) (is_training : bool) (p : pipeline image)
        (i : nat) (op : SequenceExample -> Q -> result (image * list Z))
        (serialized : SequenceExample) (encoded_image : string)
        (caption : list Z) (parsed_flip : option (list Z)) :
  support_flip FLAGS = true ->
  get_images_and_captions simple_process_image Glob fatal_aborts FLAGS
                          is_training = Ok p ->
  nth_error (threads p) i = Some op ->
  parse_sequence_example serialized (image_feature_name FLAGS)
                         (caption_feature_name FLAGS)
                         (flip_caption_feature_name FLAGS)
    = Ok (encoded_image, caption, parsed_flip) ->
  exists flip_caption,
    parsed_flip = Some flip_caption
    /\ forall u : Q,
        ((u < 1 # 2)%Q ->
         op serialized u
         = Ok (simple_process_image encoded_image (Z.of_nat i) true
                                    is_training, flip_caption))
        /\ (~ (u < 1 # 2)%Q ->
            op serialized u
            = Ok (simple_process_image encoded_image (Z.of_nat i) false
                                       is_training, caption)).
Proof.
  intros Hflip Hp Hi Hparse.
  pose proof (pipeline_threads _ _ _ _ _ _ _ Hp) as Hall.
  destruct (Forall2_nth_error_right _ _ _ Hall i op Hi) as (tid & Htid & Hop).
  apply py_range_nth in Htid. subst tid.
  unfold preprocess_thread in Hop. rewrite Hflip in Hop.
  unfold cond_outputs in Hop.
  destruct (truthy (flip_caption_feature_name FLAGS)) eqn:Ht;
    simpl in Hop; [|discriminate].
  injection Hop as <-.
  destruct (parse_with_flip_feature _ _ _ _ _ _ _ Ht Hparse) as [c ->].
  exists c. split; [reflexivity|].
  intros u. rewrite Hparse; simpl. split; intros Hu.
  - rewrite (less_half_true u Hu). reflexivity.
  - rewrite (less_half_false u Hu). reflexivity.
Qed.

(** ** Worker count *)

(** C9. With flip support on and an odd number of preprocessing threads the
    construction of the pipeline fails: no pipeline is returned, so no batch
    is produced.  Once the prefetcher is built, what fails is the assertion
    on the thread count, before any thread is built. *)
Theorem odd_workers_with_flip_rejected (image : Type)
        (simple_process_image : string -> Z -> bool -> bool -> image)
        (Glob : string -> list string) (fatal_aborts : bool)
        (FLAGS : Flags) (is_training : bool) :
  support_flip FLAGS = true ->
  Z.odd (num_preprocess_threads FLAGS) = true ->
  is_ok (get_images_and_captions simple_process_image Glob fatal_aborts
                                 FLAGS is_training) = false
  /\ forall pf,
      prefetch_input_data Glob fatal_aborts (input_file_pattern FLAGS)
        is_training (batch_size FLAGS) (values_per_input_shard FLAGS)
        (input_queue_capacity_factor FLAGS) (num_input_reader_threads FLAGS)
        "filename_queue" "input_queue" = Ok pf ->
      get_images_and_captions simple_process_image Glob fatal_aborts FLAGS
                              is_training = Err AssertionError.
Proof.
  intros _ Hodd. apply pipeline_odd_threads. exact Hodd.
Qed.

(** C10. The assertion on the thread count does not look at the flip flag:
    for every odd number of preprocessing threads the construction fails,
    with flip support on or off; once the prefetcher is built, it is the
    assertion that fails. *)
Theorem odd_workers_always_rejected (image : Type)
        (simple_process_image : string -> Z -> bool -> bool -> image)
        (Glob : string -> list string) (fatal_aborts : bool)
        (FLAGS : Flags) (is_training : bool) :
  Z.odd (num_preprocess_threads FLAGS) = true ->
  (forall flip,
      is_ok (get_images_and_captions simple_process_image Glob fatal_aborts
               {| input_file_pattern := input_file_pattern FLAGS;
                  batch_size := batch_size FLAGS;
                  values_per_input_shard := values_per_input_shard FLAGS;
                  input_queue_capacity_factor :=
                    input_queue_capacity_factor FLAGS;
                  num_input_reader_threads := num_input_reader_threads FLAGS;
                  num_preprocess_threads := num_preprocess_threads FLAGS;
                  support_flip := flip;
                  image_feature_name := image_feature_name FLAGS;
                  caption_feature_name := caption_feature_name FLAGS;
                  flip_caption_feature_name :=
                    flip_caption_feature_name FLAGS;
                  vocab_size := vocab_size FLAGS |}
               is_training) = false)
  /\ is_ok (get_images_and_captions simple_process_image Glob fatal_aborts
                                    FLAGS is_training) = false
  /\ forall pf,
      prefetch_input_data Glob fatal_aborts (input_file_pattern FLAGS)
        is_training (batch_size FLAGS) (values_per_input_shard FLAGS)
        (input_queue_capacity_factor FLAGS) (num_input_reader_threads FLAGS)
        "filename_queue" "input_queue" = Ok pf ->
      get_images_and_captions simple_process_image Glob fatal_aborts FLAGS
                              is_training = Err AssertionError.
Proof.
  intros Hodd. split.
  - intros flip. apply pipeline_odd_threads. exact Hodd.
  - apply pipeline_odd_threads. exact Hodd.
Qed.

(** ** The attributes target *)

Lemma repeat_as_map {A : Type} (x : A) (k s : nat) :
  repeat x k = map (fun _ => x) (seq s k).
Proof.
  revert s; induction k as [|k IH]; intros s; simpl; [reflexivity|].
  now rewrite <- IH.
Qed.

Lemma vadd_map {A : Type} (f g : A -> Q) (l : list A) :
  TF.vadd (map f l) (map g l) = map (fun j => Qplus (f j) (g j)) l.
Proof.
  induction l as [|x l IH]; simpl; [reflexivity|]. now rewrite IH.
Qed.

Lemma existsb_eqb_subst (x j : Z) (l : list Z) :
  (j =? x) = true -> existsb (Z.eqb j) l = existsb (Z.eqb x) l.
Proof. intros H. apply Z.eqb_eq in H. now subst. Qed.

(** The sum of the one-hot rows of the ids of [l] not yet [seen]. *)
Lemma one_hot_sum_unseen (depth : Z) (l : list Z) :
  forall seen,
    TF.reduce_sum_axis0 depth
      (map (TF.one_hot_row depth) (TF.unique_aux seen l))
    = map (fun j =>
             if existsb (Z.eqb (Z.of_nat j)) l
                && negb (existsb (Z.eqb (Z.of_nat j)) seen)
             then 1%Q else 0%Q)
          (seq 0 (Z.to_nat depth)).
Proof.
  unfold TF.reduce_sum_axis0.
  induction l as [|x xs IH]; intros seen.
  - simpl. apply repeat_as_map.
  - cbn [TF.unique_aux].
    destruct (existsb (Z.eqb x) seen) eqn:Hseen.
    + rewrite IH. apply map_ext. intros j. cbn [existsb].
      destruct (Z.of_nat j =? x) eqn:E; [|reflexivity].
      rewrite (existsb_eqb_subst x _ seen E), Hseen.
      rewrite !andb_false_r. reflexivity.
    + cbn [map fold_right]. rewrite IH. unfold TF.one_hot_row.
      rewrite vadd_map. apply map_ext. intros j. cbn [existsb].
      destruct (Z.of_nat j =? x) eqn:E.
      * rewrite (existsb_eqb_subst x _ seen E), Hseen.
        cbn [orb negb andb]. rewrite andb_false_r. reflexivity.
      * cbn [orb].
        destruct (existsb (Z.eqb (Z.of_nat j)) xs
                  && negb (existsb (Z.eqb (Z.of_nat j)) seen));
          reflexivity.
Qed.

Lemma one_hot_sum_unique (depth : Z) (caption : list Z) :
  TF.reduce_sum_axis0 depth
    (map (TF.one_hot_row depth) (TF.unique caption))
  = multi_hot depth caption.
Proof.
  unfold TF.unique, multi_hot. rewrite one_hot_sum_unseen.
  apply map_ext. intros j. cbn [existsb negb]. now rewrite andb_true_r.
Qed.

Lemma one_hot_Ok (indices : list Z) (depth : Z) :
  0 <= depth ->
  TF.one_hot indices depth = Ok (map (TF.one_hot_row depth) indices).
Proof.
  intros H. unfold TF.one_hot, TF.check_depth.
  destruct (Z.ltb_spec depth 0); [lia|reflexivity].
Qed.

Lemma shape0_nonneg (mask : tensor) : 0 <= Broadcast.shape0 mask.
Proof. destruct mask; simpl; lia. Qed.

(** The derivation, with the one-hot sum in closed form. *)
Lemma attributes_target_closed (caption : list Z) (mask : tensor) :
  caption_to_attributes_target caption mask
  = Broadcast.mul (multi_hot (Broadcast.shape0 mask) caption) mask.
Proof.
  unfold caption_to_attributes_target.
  rewrite one_hot_Ok by apply shape0_nonneg. cbn [bind].
  now rewrite one_hot_sum_unique.
Qed.

Lemma c2ml_closed (FLAGS : Flags) (caption : list Z) :
  c2ml FLAGS caption
  = (do _ <- TF.check_depth (vocab_size FLAGS);
     Ok (multi_hot (vocab_size FLAGS) caption)).
Proof.
  unfold c2ml, TF.one_hot.
  destruct (TF.check_depth (vocab_size FLAGS)); cbn [bind]; [|reflexivity].
  now rewrite one_hot_sum_unique.
Qed.

Lemma check_depth_Ok (depth : Z) : 0 <= depth -> TF.check_depth depth = Ok tt.
Proof.
  intros H. unfold TF.check_depth.
  destruct (Z.ltb_spec depth 0); [lia|reflexivity].
Qed.

Lemma check_depth_Err (depth : Z) :
  depth < 0 -> is_ok (TF.check_depth depth) = false.
Proof.
  intros H. unfold TF.check_depth.
  destruct (Z.ltb_spec depth 0); [reflexivity|lia].
Qed.

Lemma multi_labels_Ok (FLAGS : Flags) (captions : list (list Z)) :
  0 <= vocab_size FLAGS ->
  caption_to_multi_labels FLAGS captions
  = Ok (map (multi_hot (vocab_size FLAGS)) captions).
Proof.
  intros H. unfold caption_to_multi_labels.
  rewrite (check_depth_Ok _ H). cbn [bind].
  apply mapM_total. apply Forall_forall. intros c _.
  rewrite c2ml_closed, (check_depth_Ok _ H). reflexivity.
Qed.

Lemma multi_hot_length (width : Z) (row : list Z) :
  List.length (multi_hot width row) = Z.to_nat width.
Proof. unfold multi_hot. now rewrite length_map, length_seq. Qed.

Lemma multi_hot_nth (width : Z) (row : list Z) (j : nat) :
  (j < Z.to_nat width)%nat ->
  nth_error (multi_hot width row) j
  = Some (if existsb (Z.eqb (Z.of_nat j)) row then 1%Q else 0%Q).
Proof.
  intros Hj. unfold multi_hot. rewrite nth_error_map, nth_error_seq.
  destruct (Nat.ltb_spec j (Z.to_nat width)); [reflexivity|lia].
Qed.

Lemma vmul_length (u v : list Q) :
  List.length u = List.length v ->
  List.length (Broadcast.vmul u v) = List.length v.
Proof.
  revert v; induction u as [|x u IH]; intros [|y v]; simpl; intros H;
    try reflexivity; try discriminate.
  rewrite IH; [reflexivity|]. now injection H.
Qed.

Lemma vmul_nth (u v : list Q) (j : nat) (x y : Q) :
  nth_error u j = Some x -> nth_error v j = Some y ->
  nth_error (Broadcast.vmul u v) j = Some (Qmult x y).
Proof.
  revert v j; induction u as [|a u IH]; intros [|b v] [|j]; simpl;
    intros Hx Hy; try discriminate.
  - injection Hx as <-. injection Hy as <-. reflexivity.
  - now apply IH.
Qed.

(** C8, as the code has it.  For every row the derivation takes the distinct
    ids of the row, padding included, and builds their multi-hot vector; the
    width of that vector is the first dimension of [mask], not the vocabulary
    size; the vector is then multiplied by [mask], which has to be a float
    tensor: on an integer mask, as the batcher returns it, the multiplication
    is refused with a type error.  Against a float mask vector of width [W]
    the result has width [W] and holds, at every position [j], the mask entry
    when [j] is an id of the row and zero otherwise.  The vocabulary-wide
    multi-hot vector is what [caption_to_multi_labels] builds, for a
    vocabulary size that is not negative, and no mask is applied there. *)
Theorem attributes_target_follows_mask_width :
  (forall caption mask,
      Broadcast.require_float mask = Ok tt ->
      caption_to_attributes_target caption mask
      = attributes_target_spec (Broadcast.shape0 mask) caption mask)
  /\ (forall target_seq mask,
         Broadcast.require_float mask = Ok tt ->
         get_attributes_target target_seq mask
         = mapM (fun row =>
                   attributes_target_spec (Broadcast.shape0 mask) row mask)
                target_seq)
  /\ (forall caption target_seq (m : list (list Z)),
         caption_to_attributes_target caption (I2 m)
         = Err (TypeError "Mul: type int32 does not match type float32")
         /\ get_attributes_target target_seq (I2 m)
            = Err (TypeError "Mul: type int32 does not match type float32"))
  /\ (forall caption target_seq (v : list Z),
         caption_to_attributes_target caption (I1 v)
         = Err (TypeError "Mul: type int32 does not match type float32")
         /\ get_attributes_target target_seq (I1 v)
            = Err (TypeError "Mul: type int32 does not match type float32"))
  /\ (forall caption m,
         exists r,
           caption_to_attributes_target caption (T1 m) = Ok (T1 r)
           /\ List.length r = List.length m
           /\ forall j mj,
               nth_error m j = Some mj ->
               exists rj,
                 nth_error r j = Some rj
                 /\ (rj == if existsb (Z.eqb (Z.of_nat j)) caption
                           then mj else 0)%Q)
  /\ (forall FLAGS captions,
         0 <= vocab_size FLAGS < 2 ^ 31 ->
         caption_to_multi_labels FLAGS captions
         = Ok (map (multi_hot (vocab_size FLAGS)) captions))
  /\ (forall FLAGS captions,
         vocab_size FLAGS < 0 ->
         is_ok (caption_to_multi_labels FLAGS captions) = false).
Proof.
  assert (Hrow : forall caption mask,
             Broadcast.require_float mask = Ok tt ->
             caption_to_attributes_target caption mask
             = attributes_target_spec (Broadcast.shape0 mask) caption mask).
  { intros caption mask Hf. rewrite attributes_target_closed.
    unfold attributes_target_spec.
    destruct mask; try discriminate; reflexivity. }
  split; [exact Hrow|]. split.
  { intros target_seq mask Hf. unfold get_attributes_target.
    rewrite Hf. cbn [bind].
    induction target_seq as [|row rows IH]; simpl; [reflexivity|].
    now rewrite (Hrow _ _ Hf), IH. }
  split.
  { intros caption target_seq m. split.
    - rewrite attributes_target_closed. reflexivity.
    - reflexivity. }
  split.
  { intros caption target_seq v. split.
    - rewrite attributes_target_closed. reflexivity.
    - reflexivity. }
  split.
  { intros caption m. rewrite attributes_target_closed.
    unfold Broadcast.mul, Broadcast.mul1.
    cbn [Broadcast.shape0 Broadcast.require_float bind].
    assert (Hlen : List.length (multi_hot (Z.of_nat (List.length m)) caption)
                   = List.length m)
      by (rewrite multi_hot_length; lia).
    rewrite Hlen, Nat.eqb_refl; simpl.
    eexists. split; [reflexivity|]. split; [now apply vmul_length|].
    intros j mj Hj.
    assert (Hjm : (j < List.length m)%nat)
      by (apply nth_error_Some; congruence).
    eexists. split.
    - apply vmul_nth; [|exact Hj]. apply multi_hot_nth. lia.
    - destruct (existsb (Z.eqb (Z.of_nat j)) caption).
      + apply Qmult_1_l.
      + apply Qmult_0_l. }
  split.
  { intros FLAGS captions [H _]. now apply multi_labels_Ok. }
  intros FLAGS captions H. unfold caption_to_multi_labels.
  pose proof (check_depth_Err _ H) as E.
  destruct (TF.check_depth (vocab_size FLAGS)); [discriminate|reflexivity].
Qed.

Lemma attributes_target_follows_mask_width_witness :
  caption_to_attributes_target [2; 4; 0; 2] (T1 [1; 1; 1; 0; 1]%Q)
  = Ok (T1 [1; 0; 1; 0; 1]%Q).
Proof.
  rewrite (proj1 attributes_target_follows_mask_width) by reflexivity.
  reflexivity.
Defined.

(** C8 as stated fails.  For the one-row batch of the caption [0,2,1,2], a
    vocabulary of three ids and the batch mask [[1,1,1]], the stated vector
    is [0,1,1]; the code builds a vector of width one, the number of rows of
    the mask, in which no id of the row fits, and returns zeros.  Against a
    mask vector of width three and a vocabulary of five ids the code returns
    three entries, not five. *)
Lemma attributes_target_not_vocab_wide :
  caption_to_attributes_target [2; 1; 2] (T2 [[1; 1; 1]]%Q)
    = Ok (T2 [[0; 0; 0]]%Q)
  /\ attributes_target_spec 3 [2; 1; 2] (T2 [[1; 1; 1]]%Q)
     = Ok (T2 [[0; 1; 1]]%Q)
  /\ caption_to_attributes_target [2; 1; 2] (T2 [[1; 1; 1]]%Q)
     <> attributes_target_spec 3 [2; 1; 2] (T2 [[1; 1; 1]]%Q)
  /\ caption_to_attributes_target [2; 4; 0] (T1 [1; 1; 1]%Q)
     = Ok (T1 [1; 0; 1]%Q)
  /\ multi_hot 5 [2; 4; 0] = [1; 0; 1; 0; 1]%Q.
Proof.
  repeat split; try reflexivity. vm_compute. discriminate.
Qed.

(** ** The theorems at work on the small configuration *)

Lemma flip_selects_matching_pair_witness :
  support_flip (example_flags 2 true) = true
  /\ exists p op,
      get_images_and_captions traced_image one_file false
                              (example_flags 2 true) true = Ok p
      /\ nth_error (threads p) 1 = Some op
      /\ op example_record (1 # 4)
         = Ok (("jpeg"%string, 1, true, true), [1; 7; 6; 2])
      /\ op example_record (3 # 4)
         = Ok (("jpeg"%string, 1, false, true), [1; 5; 6; 2]).
Proof.
  split; [reflexivity|].
  do 2 eexists.
  split; [reflexivity|]. split; [reflexivity|].
  destruct (flip_selects_matching_pair _ traced_image one_file false
              (example_flags 2 true) true _ 1%nat _ example_record
              "jpeg"%string [1; 5; 6; 2] (Some [1; 7; 6; 2])
              eq_refl eq_refl eq_refl eq_refl) as (fc & Hfc & Hsel).
  injection Hfc as <-. split.
  - apply (proj1 (Hsel (1 # 4))). reflexivity.
  - apply (proj2 (Hsel (3 # 4))). intros H. vm_compute in H. discriminate.
Defined.

Lemma odd_workers_with_flip_rejected_witness :
  support_flip (example_flags 3 true) = true
  /\ Z.odd (num_preprocess_threads (example_flags 3 true)) = true
  /\ get_images_and_captions traced_image one_file false
                             (example_flags 3 true) true
     = Err AssertionError.
Proof.
  split; [reflexivity|]. split; [reflexivity|].
  eapply (proj2 (odd_workers_with_flip_rejected _ traced_image one_file false
                   (example_flags 3 true) true eq_refl eq_refl)).
  reflexivity.
Defined.

Lemma odd_workers_always_rejected_witness :
  support_flip (example_flags 3 false) = false
  /\ Z.odd (num_preprocess_threads (example_flags 3 false)) = true
  /\ is_ok (get_images_and_captions traced_image one_file false
                                    (example_flags 3 false) true) = false.
Proof.
  split; [reflexivity|]. split; [reflexivity|].
  apply (odd_workers_always_rejected _ traced_image one_file false
           (example_flags 3 false) true eq_refl).
Defined.

(** * Further properties of the module *)

(** ** Parsing one record *)

Lemma require_Ok_iff {V : Type} (k : string) (kvs : list (string * V)) v :
  require k kvs = Ok v <-> lookup k kvs = Some v.
Proof.
  unfold require. destruct (lookup k kvs) as [w|]; split; intros H;
    try discriminate; injection H as <-; reflexivity.
Qed.

Lemma parse_without_flip serialized image_feature caption_feature flip e c fc :
  truthy flip = false ->
  parse_sequence_example serialized image_feature caption_feature flip
    = Ok (e, c, fc)
  <-> lookup image_feature (context serialized) = Some e
      /\ lookup caption_feature (feature_lists serialized) = Some c
      /\ fc = None.
Proof.
  intros Ht. unfold parse_sequence_example. rewrite Ht.
  rewrite <- !require_Ok_iff.
  destruct (require image_feature _) as [e'|]; simpl;
    [|split; [discriminate|intros (H & _); discriminate]].
  destruct (require caption_feature _) as [c'|]; simpl;
    [|split; [discriminate|intros (_ & H & _); discriminate]].
  split.
  - intros H; injection H as <- <- <-. auto.
  - intros (H1 & H2 & ->). injection H1 as <-. injection H2 as <-.
    reflexivity.
Qed.

Lemma parse_with_flip serialized image_feature caption_feature name e c fc :
  truthy (Some name) = true ->
  parse_sequence_example serialized image_feature caption_feature (Some name)
    = Ok (e, c, fc)
  <-> lookup image_feature (context serialized) = Some e
      /\ lookup caption_feature (feature_lists serialized) = Some c
      /\ fc <> None
      /\ lookup name (feature_lists serialized) = fc.
Proof.
  intros Ht. unfold parse_sequence_example. rewrite Ht.
  rewrite <- !require_Ok_iff.
  destruct (require image_feature _) as [e'|]; simpl;
    [|split; [discriminate|intros (H & _); discriminate]].
  destruct (require caption_feature _) as [c'|]; simpl;
    [|split; [discriminate|intros (_ & H & _); discriminate]].
  unfold require.
  destruct (lookup name (feature_lists serialized)) as [x|]; simpl.
  - split.
    + intros H; injection H as <- <- <-. repeat split. discriminate.
    + intros (H1 & H2 & _ & <-). injection H1 as <-. injection H2 as <-.
      reflexivity.
  - split; [discriminate|]. intros (_ & _ & Hne & <-). congruence.
Qed.

(** X1. Parsing succeeds exactly when the record holds the image feature and
    the caption feature list and, if a flip feature name is given that is
    not the empty string, the flip feature list as well; the values returned
    are the ones stored under these names.  With no flip feature name, or
    the empty one, the flip caption returned is [None] whatever the record
    holds. *)
Theorem parse_sequence_example_Ok_iff serialized image_feature
        caption_feature flip_feature e c fc :
  parse_sequence_example serialized image_feature caption_feature
                         flip_feature = Ok (e, c, fc)
  <-> lookup image_feature (context serialized) = Some e
      /\ lookup caption_feature (feature_lists serialized) = Some c
      /\ match flip_feature with
         | Some name =>
             if String.eqb name "" then fc = None
             else fc <> None
                  /\ lookup name (feature_lists serialized) = fc
         | None => fc = None
         end.
Proof.
  destruct flip_feature as [name|].
  - destruct (String.eqb name "") eqn:E.
    + apply parse_without_flip. simpl. now rewrite E.
    + apply parse_with_flip. simpl. now rewrite E.
  - now apply parse_without_flip.
Qed.

(** X2. Asking for the flip caption changes neither the image nor the
    caption: whenever parsing with a flip feature name succeeds, parsing the
    same record without it succeeds with the same image and caption. *)
Theorem parse_flip_feature_is_additive serialized image_feature
        caption_feature flip_feature e c fc :
  parse_sequence_example serialized image_feature caption_feature
                         flip_feature = Ok (e, c, fc) ->
  parse_sequence_example serialized image_feature caption_feature None
    = Ok (e, c, None).
Proof.
  intros H. apply (parse_without_flip _ _ _ None); [reflexivity|].
  destruct (truthy flip_feature) eqn:Ht.
  - destruct flip_feature as [name|]; [|discriminate].
    apply (parse_with_flip _ _ _ name) in H; [|exact Ht].
    destruct H as (H1 & H2 & _). auto.
  - apply parse_without_flip in H; [|exact Ht].
    destruct H as (H1 & H2 & _). auto.
Qed.

Lemma parse_flip_feature_is_additive_witness :
  parse_sequence_example example_record "image/data" "image/caption_ids"
                         (Some "image/flip_caption_ids"%string)
    = Ok ("jpeg"%string, [1; 5; 6; 2], Some [1; 7; 6; 2])
  /\ parse_sequence_example example_record "image/data" "image/caption_ids"
                            None
     = Ok ("jpeg"%string, [1; 5; 6; 2], None).
Proof.
  split; [reflexivity|].
  exact (parse_flip_feature_is_additive example_record "image/data"
           "image/caption_ids" (Some "image/flip_caption_ids"%string)
           "jpeg"%string [1; 5; 6; 2] (Some [1; 7; 6; 2]) eq_refl).
Defined.

(** ** The shard set *)

Lemma split_comma_nonempty (s : string) : split_comma s <> [].
Proof.
  destruct s as [|c s]; simpl; [discriminate|].
  destruct (Ascii.eqb c ","); [discriminate|].
  destruct (split_comma s); discriminate.
Qed.

Lemma split_comma_join (p q : string) :
  split_comma (p ++ "," ++ q) = split_comma p ++ split_comma q.
Proof.
  induction p as [|c p IH]; [reflexivity|].
  cbn [String.append split_comma]. cbn [String.append] in IH.
  rewrite IH. destruct (Ascii.eqb c ","); [reflexivity|].
  pose proof (split_comma_nonempty p) as Hne.
  destruct (split_comma p) as [|x xs]; [congruence|reflexivity].
Qed.

Lemma split_comma_plain (p : string) :
  ~ In ","%char (list_ascii_of_string p) -> split_comma p = [p].
Proof.
  induction p as [|c p IH]; [reflexivity|].
  cbn [list_ascii_of_string split_comma]. intros Hnot.
  destruct (Ascii.eqb_spec c ",") as [->|_].
  - exfalso. apply Hnot. left; reflexivity.
  - rewrite IH; [reflexivity|]. intros Hin. apply Hnot. right; exact Hin.
Qed.

(** X3. The shard set is the concatenation, in the order of the patterns,
    of what each comma-separated pattern matches: files matched by two
    patterns are listed twice.  A pattern string with no comma is expanded
    as one pattern. *)
Theorem shard_set_concatenates (Glob : string -> list string)
        (p q : string) :
  data_files_of Glob (p ++ "," ++ q)
  = data_files_of Glob p ++ data_files_of Glob q
  /\ (~ In ","%char (list_ascii_of_string p) ->
      data_files_of Glob p = Glob p).
Proof.
  unfold data_files_of. split.
  - rewrite split_comma_join. apply flat_map_app.
  - intros H. rewrite (split_comma_plain p H). simpl. apply app_nil_r.
Qed.

Lemma shard_set_concatenates_witness :
  ~ In ","%char (list_ascii_of_string "train-*")
  /\ data_files_of one_file "train-*" = ["train-*"%string]
  /\ data_files_of one_file "train-*,train-*"
     = ["train-*"%string; "train-*"%string].
Proof.
  assert (H : ~ In ","%char (list_ascii_of_string "train-*")).
  { simpl. intros Hin.
    repeat (destruct Hin as [Hin|Hin]; [discriminate Hin|]). exact Hin. }
  split; [exact H|]. split.
  - exact (proj2 (shard_set_concatenates one_file "train-*" "") H).
  - exact (proj1 (shard_set_concatenates one_file "train-*" "train-*")).
Defined.




(** ** More on the batcher *)

Lemma dynamic_pad_uniform (rows : list (list Z)) (k : nat) :
  Forall (fun r => List.length r = k) rows -> TF.dynamic_pad rows = rows.
Proof.
  intros H. unfold TF.dynamic_pad.
  assert (Hmax : (list_max (map (@List.length Z) rows) <= k)%nat).
  { apply list_max_le. apply Forall_map.
    eapply Forall_impl; [|exact H]. simpl; intros; lia. }
  transitivity (map (fun r : list Z => r) rows); [|apply map_id].
  apply map_ext_in. intros r Hr.
  rewrite Forall_forall in H. specialize (H r Hr). unfold TF.pad_to.
  replace (list_max (map (@List.length Z) rows) - List.length r)%nat
    with 0%nat by lia.
  apply app_nil_r.
Qed.

Lemma mapM_same_error {A B : Type} (f : A -> result B) (e0 : error)
      (l : list A) (x : A) :
  (forall y e, f y = Err e -> e = e0) ->
  In x l -> f x = Err e0 -> mapM f l = Err e0.
Proof.
  intros Hall. induction l as [|y ys IH]; simpl; [tauto|].
  intros Hin Hx. destruct (f y) as [b|e] eqn:Ey; cbn [bind].
  - destruct Hin as [->|Hin]; [congruence|].
    rewrite (IH Hin Hx). reflexivity.
  - now rewrite (Hall y e Ey).
Qed.

Lemma enqueue_tuple_error {image : Type} (e : image * list Z) (err : error) :
  enqueue_tuple e = Err err ->
  err = InvalidArgumentError "slice: begin or size out of range".
Proof.
  destruct e as [img [|x cap]].
  - intros H. vm_compute in H. congruence.
  - rewrite (enqueue_tuple_shifted (img, x :: cap)) by (simpl; lia).
    discriminate.
Qed.

(** X5. One empty caption among the examples collected into a batch loses
    the whole batch, wherever it stands and whatever the other captions are:
    the derivation of its row raises the out-of-range error of the slice and
    no row of the batch is returned. *)
Theorem empty_caption_loses_batch (image : Type)
        (exs : list (image * list Z)) (img : image) :
  In (img, []) exs ->
  batch_with_dynamic_pad exs
  = Err (InvalidArgumentError "slice: begin or size out of range").
Proof.
  intros Hin. unfold batch_with_dynamic_pad.
  rewrite (mapM_same_error enqueue_tuple
             (InvalidArgumentError "slice: begin or size out of range")
             exs (img, [])); [reflexivity| |exact Hin|reflexivity].
  intros y e. apply enqueue_tuple_error.
Qed.

Lemma empty_caption_loses_batch_witness :
  batch_with_dynamic_pad
    [(tt, [1; 2; 3; 4; 5]); (tt, [1; 2; 3]); (tt, []); (tt, [7; 8])]
  = Err (InvalidArgumentError "slice: begin or size out of range").
Proof.
  apply (empty_caption_loses_batch unit _ tt). simpl. tauto.
Defined.

(** X6. In a produced batch the images are those of the examples, in their
    order, each of the three sequence fields has one row per example, and
    the lengths the summaries report, the mask row sums plus one, are the
    true caption lengths. *)
Theorem batch_keeps_examples_aligned (image : Type)
        (exs : list (image * list Z)) (b : Batch image) :
  batch_with_dynamic_pad exs = Ok b ->
  images b = map fst exs
  /\ List.length (input_seqs b) = List.length exs
  /\ List.length (target_seqs b) = List.length exs
  /\ List.length (mask b) = List.length exs
  /\ summary_lengths b = map (fun e => Z.of_nat (List.length (snd e))) exs.
Proof.
  intros Hb. pose proof (batch_Ok_lengths _ _ _ Hb) as Hlen.
  rewrite (batch_Ok_shifted _ _ _ Hb).
  unfold summary_lengths, batch_join, TF.dynamic_pad. cbn [images input_seqs
    target_seqs mask]. rewrite !length_map.
  split; [|repeat split].
  - rewrite map_map. apply map_ext. intros [img cap]; reflexivity.
  - rewrite indicator_lengths, !map_map.
    rewrite Forall_forall in Hlen.
    apply map_ext_in. intros [img cap] Hin.
    specialize (Hlen _ Hin). simpl in Hlen.
    unfold TF.pad_to; simpl. rewrite sumZ_padded_ones. lia.
Qed.

Lemma batch_keeps_examples_aligned_witness :
  exists b,
    batch_with_dynamic_pad [(tt, [1; 2; 3; 4; 5]); (tt, [9]); (tt, [1; 2; 3])]
      = Ok b
    /\ summary_lengths b = [5; 1; 3].
Proof.
  eexists. split; [reflexivity|].
  exact (proj2 (proj2 (proj2 (proj2
    (batch_keeps_examples_aligned unit
       [(tt, [1; 2; 3; 4; 5]); (tt, [9]); (tt, [1; 2; 3])] _ eq_refl))))).
Defined.

(** X7. In every row of a produced batch the target sequence is the input
    sequence moved one position on: below the last real position, the
    target at [j] is the input at [j+1].  For a caption of at least two
    tokens the input row starts with the first token of the caption and the
    target row holds the last token at its last real position. *)
Theorem target_is_input_shifted (image : Type)
        (exs : list (image * list Z)) (b : Batch image) (i : nat)
        (img : image) (caption : list Z) :
  batch_with_dynamic_pad exs = Ok b ->
  nth_error exs i = Some (img, caption) ->
  exists input_row target_row,
    nth_error (input_seqs b) i = Some input_row
    /\ nth_error (target_seqs b) i = Some target_row
    /\ (forall j, (S j < List.length caption - 1)%nat ->
                  nth_error target_row j = nth_error input_row (S j))
    /\ ((2 <= List.length caption)%nat ->
        nth_error input_row 0 = nth_error caption 0
        /\ nth_error target_row (List.length caption - 2)
           = nth_error caption (List.length caption - 1)).
Proof.
  intros Hb Hi. rewrite (batch_Ok_shifted _ _ _ Hb).
  destruct (batch_join_rows _ exs i img caption Hi) as (Hin & Htg & _).
  do 2 eexists. split; [exact Hin|]. split; [exact Htg|]. split.
  - intros j Hj.
    rewrite !padded_real
      by (rewrite ?py_slice_front_length, ?py_slice_back_length; lia).
    rewrite py_slice_front_nth, py_slice_back_nth by lia. reflexivity.
  - intros HL.
    rewrite !padded_real
      by (rewrite ?py_slice_front_length, ?py_slice_back_length; lia).
    rewrite py_slice_front_nth, py_slice_back_nth by lia.
    split; [reflexivity|]. f_equal. lia.
Qed.

Lemma target_is_input_shifted_witness :
  exists b input_row target_row,
    batch_with_dynamic_pad [(tt, [1; 2; 3; 4; 5]); (tt, [6; 7; 8])] = Ok b
    /\ nth_error (input_seqs b) 1 = Some input_row
    /\ nth_error (target_seqs b) 1 = Some target_row
    /\ nth_error target_row 0 = nth_error input_row 1.
Proof.
  destruct (target_is_input_shifted unit
              [(tt, [1; 2; 3; 4; 5]); (tt, [6; 7; 8])] _ 1%nat tt [6; 7; 8]
              eq_refl eq_refl)
    as (input_row & target_row & Hin & Htg & Hshift & _).
  eexists; exists input_row, target_row.
  split; [reflexivity|]. split; [exact Hin|]. split; [exact Htg|].
  apply Hshift. simpl; lia.
Defined.

(** X8. When all captions of a batch have the same length [n >= 1] nothing
    is padded: the rows are the two slices of each caption and every mask
    row is [n-1] ones. *)
Theorem equal_length_batch_is_unpadded (image : Type)
        (exs : list (image * list Z)) (n : nat) :
  (1 <= n)%nat ->
  Forall (fun e => List.length (snd e) = n) exs ->
  batch_with_dynamic_pad exs
  = Ok {| images := map fst exs;
          input_seqs := map (fun e => py_slice (snd e) 0 (n - 1)) exs;
          target_seqs := map (fun e => py_slice (snd e) 1 n) exs;
          mask := map (fun _ => repeat 1 (n - 1)%nat) exs |}.
Proof.
  intros Hn Hall. rewrite Forall_forall in Hall.
  rewrite batch_total
    by (apply Forall_forall; intros e He; rewrite (Hall e He); exact Hn).
  unfold batch_join. rewrite !map_map.
  rewrite !(dynamic_pad_uniform _ (n - 1)%nat).
  - f_equal. f_equal.
    + apply map_ext. intros [img cap]; reflexivity.
    + apply map_ext_in. intros [img cap] He; simpl.
      pose proof (Hall _ He) as E; simpl in E. now rewrite E.
    + apply map_ext_in. intros [img cap] He; simpl.
      pose proof (Hall _ He) as E; simpl in E. now rewrite E.
    + apply map_ext_in. intros [img cap] He; simpl.
      pose proof (Hall _ He) as E; simpl in E. now rewrite E.
  - apply Forall_map, Forall_forall. intros [img cap] He; simpl.
    pose proof (Hall _ He) as E; simpl in E.
    rewrite repeat_length. now rewrite E.
  - apply Forall_map, Forall_forall. intros [img cap] He; simpl.
    pose proof (Hall _ He) as E; simpl in E.
    rewrite py_slice_back_length. now rewrite E.
  - apply Forall_map, Forall_forall. intros [img cap] He; simpl.
    pose proof (Hall _ He) as E; simpl in E.
    rewrite py_slice_front_length. now rewrite E.
Qed.

Lemma equal_length_batch_is_unpadded_witness :
  (1 <= 3)%nat
  /\ batch_with_dynamic_pad [(tt, [1; 2; 3]); (tt, [4; 5; 6])]
     = Ok {| images := [tt; tt];
             input_seqs := [[1; 2]; [4; 5]];
             target_seqs := [[2; 3]; [5; 6]];
             mask := [[1; 1]; [1; 1]] |}.
Proof.
  split; [lia|].
  apply (equal_length_batch_is_unpadded unit
           [(tt, [1; 2; 3]); (tt, [4; 5; 6])] 3); [lia|].
  repeat constructor.
Defined.

(** ** More on the attributes target and the multi-labels *)

Lemma existsb_same_elements (f : Z -> bool) (c1 c2 : list Z) :
  (forall x, In x c1 <-> In x c2) -> existsb f c1 = existsb f c2.
Proof.
  intros H. apply Bool.eq_iff_eq_true. rewrite !existsb_exists.
  split; intros (x & Hx & Hf); exists x; split; auto; now apply H.
Qed.

Lemma multi_hot_same_elements (width : Z) (c1 c2 : list Z) :
  (forall x, In x c1 <-> In x c2) -> multi_hot width c1 = multi_hot width c2.
Proof.
  intros H. unfold multi_hot. apply map_ext. intros j.
  now rewrite (existsb_same_elements _ c1 c2 H).
Qed.

Lemma existsb_eqb_filter (g : Z -> bool) (j : Z) (l : list Z) :
  g j = true -> existsb (Z.eqb j) (filter g l) = existsb (Z.eqb j) l.
Proof.
  intros Hg. induction l as [|x l IH]; [reflexivity|]. cbn [filter existsb].
  destruct (Z.eqb_spec j x) as [<-|Hne].
  - rewrite Hg. cbn [existsb]. now rewrite Z.eqb_refl.
  - destruct (g x); cbn [existsb]; [|exact IH].
    destruct (Z.eqb_spec j x); [contradiction|exact IH].
Qed.

Lemma multi_hot_in_range (width : Z) (caption : list Z) :
  multi_hot width caption
  = multi_hot width
              (filter (fun x => (0 <=? x) && (x <? width)) caption).
Proof.
  unfold multi_hot. apply map_ext_in. intros j Hj.
  apply in_seq in Hj.
  rewrite existsb_eqb_filter; [reflexivity|].
  apply andb_true_iff. split; [apply Z.leb_le|apply Z.ltb_lt]; lia.
Qed.

(** X9. The attributes target and the multi-label of a row depend only on
    which ids occur in it: the order of the tokens and how often each one
    occurs make no difference. *)
Theorem targets_depend_on_id_set (FLAGS : Flags) (c1 c2 : list Z)
        (mask : tensor) :
  (forall x, In x c1 <-> In x c2) ->
  caption_to_attributes_target c1 mask = caption_to_attributes_target c2 mask
  /\ caption_to_multi_labels FLAGS [c1] = caption_to_multi_labels FLAGS [c2].
Proof.
  intros H. split.
  - rewrite !attributes_target_closed.
    now rewrite (multi_hot_same_elements _ c1 c2 H).
  - unfold caption_to_multi_labels; cbn [mapM].
    rewrite !c2ml_closed.
    now rewrite (multi_hot_same_elements _ c1 c2 H).
Qed.

Lemma targets_depend_on_id_set_witness :
  (forall x, In x [3; 1; 3; 0] <-> In x [0; 1; 3])
  /\ caption_to_multi_labels (example_flags 2 false) [[3; 1; 3; 0]]
     = caption_to_multi_labels (example_flags 2 false) [[0; 1; 3]].
Proof.
  assert (H : forall x, In x [3; 1; 3; 0] <-> In x [0; 1; 3])
    by (intros x; simpl; tauto).
  split; [exact H|].
  exact (proj2 (targets_depend_on_id_set (example_flags 2 false)
                  [3; 1; 3; 0] [0; 1; 3] (T1 []) H)).
Defined.

(** X10. Ids that do not fit the width of the multi-hot vector are dropped
    without an error: negative ids and ids from the width on leave no trace
    in the attributes target, nor in the multi-label; for a vocabulary size
    that is not negative, a row made of such ids only gets the all-zero
    multi-label. *)
Theorem out_of_range_ids_are_dropped (FLAGS : Flags) (caption : list Z)
        (mask : tensor) :
  caption_to_attributes_target caption mask
  = caption_to_attributes_target
      (filter (fun x => (0 <=? x) && (x <? Broadcast.shape0 mask)) caption)
      mask
  /\ c2ml FLAGS caption
     = c2ml FLAGS
            (filter (fun x => (0 <=? x) && (x <? vocab_size FLAGS)) caption)
  /\ (0 <= vocab_size FLAGS < 2 ^ 31 ->
      Forall (fun x => x < 0 \/ vocab_size FLAGS <= x) caption ->
      c2ml FLAGS caption = Ok (repeat 0%Q (Z.to_nat (vocab_size FLAGS)))).
Proof.
  split; [|split].
  - rewrite !attributes_target_closed. now rewrite <- multi_hot_in_range.
  - rewrite !c2ml_closed. now rewrite <- multi_hot_in_range.
  - intros [Hv _] Hall. rewrite c2ml_closed, (check_depth_Ok _ Hv).
    cbn [bind]. f_equal. rewrite multi_hot_in_range.
    replace (filter (fun x => (0 <=? x) && (x <? vocab_size FLAGS)) caption)
      with (@nil Z).
    + unfold multi_hot. cbn [existsb]. symmetry. apply repeat_as_map.
    + symmetry. induction Hall as [|x l Hx _ IH]; [reflexivity|].
      cbn [filter].
      replace ((0 <=? x) && (x <? vocab_size FLAGS)) with false; [exact IH|].
      symmetry. apply andb_false_iff.
      destruct Hx; [left; apply Z.leb_gt|right; apply Z.ltb_ge]; lia.
Qed.

Lemma out_of_range_ids_are_dropped_witness :
  Forall (fun x => x < 0 \/ 12000 <= x) [-1; 12000; 40000]
  /\ c2ml (example_flags 2 false) [-1; 12000; 40000]
     = Ok (repeat 0%Q (Z.to_nat 12000))
  /\ caption_to_attributes_target [-1; 2; 4; 9] (T1 [1; 1; 1; 1]%Q)
     = Ok (T1 [0; 0; 1; 0]%Q).
Proof.
  assert (H : Forall (fun x => x < 0 \/ 12000 <= x) [-1; 12000; 40000])
    by (repeat constructor; lia).
  split; [exact H|]. split.
  - apply (proj2 (proj2 (out_of_range_ids_are_dropped (example_flags 2 false)
                           [-1; 12000; 40000] (T1 [])))); [|exact H].
    cbn. lia.
  - rewrite (proj1 (out_of_range_ids_are_dropped (example_flags 2 false)
                      [-1; 2; 4; 9] (T1 [1; 1; 1; 1]%Q))).
    reflexivity.
Defined.

Lemma mul1_mismatch (u v : list Q) :
  List.length u <> List.length v ->
  List.length u <> 1%nat -> List.length v <> 1%nat ->
  is_ok (Broadcast.mul1 u v) = false.
Proof.
  intros Huv Hu Hv. unfold Broadcast.mul1.
  destruct (Nat.eqb_spec (List.length u) (List.length v)); [contradiction|].
  destruct u as [|x [|x' u]]; destruct v as [|y [|y' v]];
    simpl in *; try reflexivity; congruence.
Qed.

(** X11. Given a mask matrix, as the batcher returns it, the derivation of
    the attributes target breaks on its shape: with more than one row and
    rows whose width is neither one nor the number of rows, the multi-hot
    vector, which is as wide as the matrix has rows, cannot be multiplied
    with a row, and the derivation fails for every caption; so does the
    derivation for a whole batch of target rows. *)
Theorem attributes_target_rejects_batch_mask (caption : list Z)
        (row : list Q) (rows : list (list Q))
        (target_seq : list (list Z)) :
  rows <> [] ->
  List.length row <> 1%nat ->
  List.length row <> S (List.length rows) ->
  is_ok (caption_to_attributes_target caption (T2 (row :: rows))) = false
  /\ (target_seq <> [] ->
      is_ok (get_attributes_target target_seq (T2 (row :: rows))) = false).
Proof.
  intros Hrows H1 HB.
  assert (Hone : forall c,
             is_ok (caption_to_attributes_target c (T2 (row :: rows)))
             = false).
  { intros c. rewrite attributes_target_closed.
    unfold Broadcast.mul; cbn [Broadcast.require_float bind mapM].
    pose proof (mul1_mismatch
                  (multi_hot (Broadcast.shape0 (T2 (row :: rows))) c) row)
      as Hm.
    rewrite multi_hot_length in Hm. cbn [Broadcast.shape0 List.length] in Hm.
    rewrite Nat2Z.id in Hm.
    destruct (Broadcast.mul1 _ row); [|reflexivity].
    exfalso. assert (E : true = false); [|discriminate].
    apply Hm; try congruence.
    destruct rows; simpl; congruence. }
  split; [apply Hone|].
  intros Hne. unfold get_attributes_target.
  cbn [Broadcast.require_float bind].
  destruct target_seq as [|c cs]; [congruence|]. cbn [mapM].
  specialize (Hone c).
  destruct (caption_to_attributes_target c (T2 (row :: rows)));
    [discriminate|reflexivity].
Qed.

Lemma attributes_target_rejects_batch_mask_witness :
  is_ok (get_attributes_target [[2; 3; 4; 5]; [2; 3; 0; 0]]
           (T2 [[1; 1; 1; 1]; [1; 1; 0; 0]]%Q)) = false.
Proof.
  apply (attributes_target_rejects_batch_mask [] [1; 1; 1; 1]%Q
           [[1; 1; 0; 0]]%Q [[2; 3; 4; 5]; [2; 3; 0; 0]]);
    simpl; try discriminate.
Defined.



(** ** More on the preprocessing threads and the pipeline *)

Lemma mapM_Forall2 {A B : Type} (f : A -> result B) (l : list A)
      (ys : list B) :
  Forall2 (fun x y => f x = Ok y) l ys -> mapM f l = Ok ys.
Proof.
  induction 1 as [|x y l ys Hxy _ IH]; simpl; [reflexivity|].
  rewrite Hxy; simpl. rewrite IH. reflexivity.
Qed.

Lemma mapM_all_ok {A B : Type} (f : A -> result B) (l : list A) :
  Forall (fun x => is_ok (f x) = true) l ->
  exists ys, mapM f l = Ok ys /\ List.length ys = List.length l.
Proof.
  induction 1 as [|x l Hx _ (ys & Hys & Hlen)]; simpl.
  - exists []. auto.
  - destruct (f x) as [y|]; [|discriminate]. simpl. rewrite Hys. simpl.
    exists (y :: ys). simpl. auto.
Qed.

Lemma parse_missing_feature serialized image_feature caption_feature flip :
  lookup image_feature (context serialized) = None
  \/ lookup caption_feature (feature_lists serialized) = None
  \/ (exists name, flip = Some name /\ name <> ""%string
                   /\ lookup name (feature_lists serialized) = None) ->
  is_ok (parse_sequence_example serialized image_feature caption_feature
                                flip) = false.
Proof.
  intros H.
  destruct (parse_sequence_example serialized image_feature caption_feature
                                   flip) as [[[e c] fc]|] eqn:E;
    [|reflexivity].
  exfalso. destruct (truthy flip) eqn:Ht.
  - destruct flip as [name|]; [|discriminate].
    apply (parse_with_flip _ _ _ name) in E; [|exact Ht].
    destruct E as (H1 & H2 & H3 & H4).
    destruct H as [H|[H|(name' & Hn & _ & H)]]; congruence.
  - apply parse_without_flip in E; [|exact Ht].
    destruct E as (H1 & H2 & _).
    destruct H as [H|[H|(name & -> & Hne & _)]]; try congruence.
    simpl in Ht. apply negb_false_iff, String.eqb_eq in Ht. contradiction.
Qed.

Section ThreadFacts.

Variable image : Type.
Variable simple_process_image : string -> Z -> bool -> bool -> image.
Variable Glob : string -> list string.
Variable fatal_aborts : bool.
Variable FLAGS : Flags.
Variable is_training : bool.

Lemma pipeline_thread p i op :
  get_images_and_captions simple_process_image Glob fatal_aborts FLAGS
                          is_training = Ok p -> nth_error (threads p) i = Some op ->
  preprocess_thread simple_process_image FLAGS is_training (Z.of_nat i)
    = Ok op
  /\ Z.of_nat i < num_preprocess_threads FLAGS.
Proof.
  intros Hp Hi.
  pose proof (pipeline_threads _ _ _ _ _ _ _ Hp) as Hall.
  destruct (Forall2_nth_error_right _ _ _ Hall i op Hi) as (tid & Htid & Hop).
  pose proof (py_range_nth _ _ _ Htid) as ->. split; [exact Hop|].
  assert (Hlt : (i < List.length (py_range (num_preprocess_threads FLAGS)))%nat)
    by (apply nth_error_Some; congruence).
  unfold py_range in Hlt. rewrite length_map, length_seq in Hlt. lia.
Qed.

Lemma pipeline_thread_at p i :
  get_images_and_captions simple_process_image Glob fatal_aborts FLAGS
                          is_training = Ok p -> Z.of_nat i < num_preprocess_threads FLAGS ->
  exists op, nth_error (threads p) i = Some op.
Proof.
  intros Hp Hi.
  pose proof (pipeline_threads _ _ _ _ _ _ _ Hp) as Hall.
  apply Forall2_length in Hall.
  unfold py_range in Hall. rewrite length_map, length_seq in Hall.
  destruct (nth_error (threads p) i) as [op|] eqn:E; [eauto|].
  apply nth_error_None in E. lia.
Qed.

Lemma pipeline_run_batch p jobs :
  get_images_and_captions simple_process_image Glob fatal_aborts FLAGS
                          is_training = Ok p ->
  run_batch p jobs
  = (do examples <- mapM (run_thread (threads p)) jobs;
     batch_with_dynamic_pad examples).
Proof.
  intros Hp. apply pipeline_Ok_inv in Hp.
  destruct Hp as (_ & _ & _ & _ & _ & ->). reflexivity.
Qed.

Lemma unflipped_op p i op serialized encoded_image caption u :
  support_flip FLAGS = false ->
  get_images_and_captions simple_process_image Glob fatal_aborts FLAGS
                          is_training = Ok p -> nth_error (threads p) i = Some op ->
  lookup (image_feature_name FLAGS) (context serialized)
    = Some encoded_image ->
  lookup (caption_feature_name FLAGS) (feature_lists serialized)
    = Some caption ->
  op serialized u
  = Ok (simple_process_image encoded_image (Z.of_nat i) false is_training,
        caption).
Proof.
  intros Hflip Hp Hi Himg Hcap.
  destruct (pipeline_thread p i op Hp Hi) as [Hop _].
  unfold preprocess_thread in Hop. rewrite Hflip in Hop.
  injection Hop as <-.
  assert (E : parse_sequence_example serialized (image_feature_name FLAGS)
                (caption_feature_name FLAGS) None
              = Ok (encoded_image, caption, None))
    by (apply parse_without_flip; auto).
  rewrite E. reflexivity.
Qed.

End ThreadFacts.

(** X13. With flip support off a preprocessing thread never flips: whatever
    value is drawn, thread [i] returns the image processed unflipped under
    thread id [i], paired with the caption, and the record needs no flip
    caption. *)
Theorem unflipped_thread_ignores_draw (image : Type)
        (simple_process_image : string -> Z -> bool -> bool -> image)
        (Glob : string -> list string) (fatal_aborts : bool)
        (FLAGS : Flags) (is_training : bool) (p : pipeline image)
        (i : nat) (op : SequenceExample -> Q -> result (image * list Z))
        (serialized : SequenceExample) (encoded_image : string)
        (caption : list Z) :
  support_flip FLAGS = false ->
  get_images_and_captions simple_process_image Glob fatal_aborts FLAGS
                          is_training = Ok p ->
  nth_error (threads p) i = Some op ->
  lookup (image_feature_name FLAGS) (context serialized)
    = Some encoded_image ->
  lookup (caption_feature_name FLAGS) (feature_lists serialized)
    = Some caption ->
  forall u : Q,
    op serialized u
    = Ok (simple_process_image encoded_image (Z.of_nat i) false is_training,
          caption).
Proof.
  intros Hflip Hp Hi Himg Hcap u.
  eapply unflipped_op; eauto.
Qed.

Lemma unflipped_thread_ignores_draw_witness :
  exists p op,
    get_images_and_captions traced_image one_file false
                            (example_flags 2 false) false = Ok p
    /\ nth_error (threads p) 1 = Some op
    /\ op {| context := [("image/data", "jpeg")]%string;
             feature_lists := [("image/caption_ids"%string, [1; 5; 2])] |}
          (1 # 10)
       = Ok (("jpeg"%string, 1, false, false), [1; 5; 2]).
Proof.
  do 2 eexists. split; [reflexivity|]. split; [reflexivity|].
  apply (unflipped_thread_ignores_draw _ traced_image one_file false
           (example_flags 2 false) false _ 1%nat _
           {| context := [("image/data", "jpeg")]%string;
              feature_lists := [("image/caption_ids"%string, [1; 5; 2])] |}
           "jpeg"%string [1; 5; 2]
           eq_refl eq_refl eq_refl eq_refl eq_refl (1 # 10)).
Defined.

(** X14. A record that lacks the image feature or the caption feature list
    makes every preprocessing thread fail on it, and so does, with flip
    support on, a record that lacks the flip caption feature list: the
    failure does not depend on the value drawn, so such a record fails even
    when the unflipped pair would have been selected. *)
Theorem thread_fails_on_missing_feature (image : Type)
        (simple_process_image : string -> Z -> bool -> bool -> image)
        (Glob : string -> list string) (fatal_aborts : bool)
        (FLAGS : Flags) (is_training : bool) (p : pipeline image)
        (i : nat) (op : SequenceExample -> Q -> result (image * list Z))
        (serialized : SequenceExample) :
  get_images_and_captions simple_process_image Glob fatal_aborts FLAGS
                          is_training = Ok p ->
  nth_error (threads p) i = Some op ->
  lookup (image_feature_name FLAGS) (context serialized) = None
  \/ lookup (caption_feature_name FLAGS) (feature_lists serialized) = None
  \/ (support_flip FLAGS = true
      /\ exists name, flip_caption_feature_name FLAGS = Some name
                      /\ name <> ""%string
                      /\ lookup name (feature_lists serialized) = None) ->
  forall u : Q, is_ok (op serialized u) = false.
Proof.
  intros Hp Hi Hmiss u.
  destruct (pipeline_thread _ _ _ _ _ _ p i op Hp Hi) as [Hop _].
  unfold preprocess_thread in Hop.
  destruct (support_flip FLAGS) eqn:Hflip.
  - destruct (cond_outputs _) as [[]|]; simpl in Hop; [|discriminate].
    injection Hop as <-.
    assert (E : is_ok (parse_sequence_example serialized
                         (image_feature_name FLAGS)
                         (caption_feature_name FLAGS)
                         (flip_caption_feature_name FLAGS)) = false).
    { apply parse_missing_feature.
      destruct Hmiss as [H|[H|(_ & H)]]; auto. }
    destruct (parse_sequence_example _ _ _ _); [discriminate|reflexivity].
  - injection Hop as <-.
    assert (E : is_ok (parse_sequence_example serialized
                         (image_feature_name FLAGS)
                         (caption_feature_name FLAGS) None) = false).
    { apply parse_missing_feature.
      destruct Hmiss as [H|[H|(H & _)]]; auto. discriminate. }
    destruct (parse_sequence_example _ _ _ _); [discriminate|reflexivity].
Qed.

Lemma thread_fails_on_missing_feature_witness :
  exists p op,
    get_images_and_captions traced_image one_file false
                            (example_flags 2 true) true = Ok p
    /\ nth_error (threads p) 0 = Some op
    /\ is_ok (op {| context := [("image/data", "jpeg")]%string;
                    feature_lists :=
                      [("image/caption_ids"%string, [1; 5; 2])] |}
                 (9 # 10)) = false.
Proof.
  do 2 eexists. split; [reflexivity|]. split; [reflexivity|].
  apply (thread_fails_on_missing_feature _ traced_image one_file false
           (example_flags 2 true) true _ 0%nat _ _ eq_refl eq_refl).
  right; right. split; [reflexivity|].
  exists "image/flip_caption_ids"%string.
  split; [reflexivity|]. split; [discriminate|reflexivity].
Defined.

(** X15. The pipeline is built on a shard set that is not empty, with at
    least one reader thread, a positive even number of preprocessing threads,
    a positive batch size below [2^31], a shard size estimate and a capacity
    factor that are not negative, queue capacities below [2^63] and, when
    flip support is on, a flip caption feature name that is not empty.  It
    then has one thread per thread id, its batching queue holds
    [2 * num_preprocess_threads * batch_size] tuples, and its input queue is
    the one the prefetcher builds from the flags. *)
Theorem pipeline_is_built (image : Type)
        (simple_process_image : string -> Z -> bool -> bool -> image)
        (Glob : string -> list string) (fatal_aborts : bool)
        (FLAGS : Flags) (is_training : bool) :
  data_files_of Glob (input_file_pattern FLAGS) <> [] ->
  0 < num_input_reader_threads FLAGS ->
  0 < num_preprocess_threads FLAGS ->
  Z.odd (num_preprocess_threads FLAGS) = false ->
  0 < batch_size FLAGS < 2 ^ 31 ->
  0 <= values_per_input_shard FLAGS ->
  0 <= input_queue_capacity_factor FLAGS ->
  values_per_input_shard FLAGS * input_queue_capacity_factor FLAGS
  + 100 * batch_size FLAGS < 2 ^ 63 ->
  values_per_input_shard FLAGS + 3 * batch_size FLAGS < 2 ^ 63 ->
  2 * num_preprocess_threads FLAGS * batch_size FLAGS < 2 ^ 63 ->
  (support_flip FLAGS = true ->
   truthy (flip_caption_feature_name FLAGS) = true) ->
  exists p,
    get_images_and_captions simple_process_image Glob fatal_aborts FLAGS
                            is_training = Ok p
    /\ Z.of_nat (List.length (threads p)) = num_preprocess_threads FLAGS
    /\ queue_capacity p
       = 2 * num_preprocess_threads FLAGS * batch_size FLAGS
    /\ prefetch_input_data Glob fatal_aborts (input_file_pattern FLAGS)
         is_training (batch_size FLAGS) (values_per_input_shard FLAGS)
         (input_queue_capacity_factor FLAGS)
         (num_input_reader_threads FLAGS) "filename_queue" "input_queue"
       = Ok (input_queue p).
Proof.
  intros Hne Hr Hpos Heven [Hb _] Hv Hf Hc1 Hc2 Hc3 Hname.
  unfold get_images_and_captions.
  assert (Hpf : exists pf,
             prefetch_input_data Glob fatal_aborts (input_file_pattern FLAGS)
               is_training (batch_size FLAGS) (values_per_input_shard FLAGS)
               (input_queue_capacity_factor FLAGS)
               (num_input_reader_threads FLAGS) "filename_queue"
               "input_queue" = Ok pf).
  { destruct is_training; eexists;
      [apply prefetch_training|apply prefetch_eval];
      unfold int64; auto; nia. }
  destruct Hpf as (pf & ->). cbn [bind].
  rewrite (even_passes_assert _ Heven). cbn [bind].
  destruct (mapM_all_ok
              (preprocess_thread simple_process_image FLAGS is_training)
              (py_range (num_preprocess_threads FLAGS)))
    as (ops & -> & Hlen).
  { apply Forall_forall. intros tid _. unfold preprocess_thread, cond_outputs.
    destruct (support_flip FLAGS); [|reflexivity].
    rewrite (Hname eq_refl). reflexivity. }
  cbn [bind]. rewrite py_range_length in Hlen.
  unfold batch_and_pad.
  destruct ops as [|op ops]; [simpl in Hlen; lia|].
  rewrite int64_attr_Ok by (unfold int64; nia). cbn [bind].
  rewrite fill_summary_Ok by nia. cbn [bind].
  eexists. split; [reflexivity|]. cbn.
  split; [|split; reflexivity].
  cbn in Hlen. lia.
Qed.

Lemma pipeline_is_built_witness :
  data_files_of one_file (input_file_pattern (example_flags 4 true)) <> []
  /\ exists p,
      get_images_and_captions traced_image one_file false
                              (example_flags 4 true) true = Ok p
      /\ Z.of_nat (List.length (threads p)) = 4
      /\ queue_capacity p = 256.
Proof.
  assert (H : data_files_of one_file
                (input_file_pattern (example_flags 4 true)) <> [])
    by (vm_compute; discriminate).
  split; [exact H|].
  destruct (pipeline_is_built _ traced_image one_file false
              (example_flags 4 true) true H)
    as (p & Hp & Hn & Hq & _);
    try (cbn; lia); try reflexivity.
  exists p. split; [exact Hp|]. split; [exact Hn|exact Hq].
Defined.

(** X16. With flip support off, the batch the pipeline returns for the
    examples of one step is the dynamic batch of the unflipped images and
    the captions of the records, each image processed under the id of the
    thread that dequeued its record; the values drawn play no part. *)
Theorem unflipped_pipeline_batch (image : Type)
        (simple_process_image : string -> Z -> bool -> bool -> image)
        (Glob : string -> list string) (fatal_aborts : bool)
        (FLAGS : Flags) (is_training : bool) (p : pipeline image)
        (jobs : list (nat * SequenceExample * Q))
        (exs : list (image * list Z)) :
  support_flip FLAGS = false ->
  get_images_and_captions simple_process_image Glob fatal_aborts FLAGS
                          is_training = Ok p ->
  Forall2 (fun (job : nat * SequenceExample * Q) ex =>
             Z.of_nat (fst (fst job)) < num_preprocess_threads FLAGS
             /\ exists encoded_image caption,
                 lookup (image_feature_name FLAGS)
                        (context (snd (fst job))) = Some encoded_image
                 /\ lookup (caption_feature_name FLAGS)
                           (feature_lists (snd (fst job))) = Some caption
                 /\ ex = (simple_process_image encoded_image
                            (Z.of_nat (fst (fst job))) false is_training,
                          caption))
          jobs exs ->
  run_batch p jobs = batch_with_dynamic_pad exs.
Proof.
  intros Hflip Hp Hjobs.
  rewrite (pipeline_run_batch _ _ _ _ _ _ p jobs Hp).
  rewrite (mapM_Forall2 (run_thread (threads p)) jobs exs); [reflexivity|].
  eapply Forall2_impl; [|exact Hjobs].
  intros [[i serialized] u] ex (Hi & enc & cap & Himg & Hcap & ->).
  simpl in *.
  destruct (pipeline_thread_at _ _ _ _ _ _ p i Hp Hi) as (op & Hop).
  rewrite Hop. eapply unflipped_op; eauto.
Qed.

Lemma unflipped_pipeline_batch_witness :
  exists p,
    get_images_and_captions traced_image one_file false
                            (example_flags 2 false) true = Ok p
    /\ run_batch p [(1%nat, example_record, 1 # 4);
                    (0%nat, example_record, 3 # 4)]
       = Ok {| images := [("jpeg"%string, 1, false, true);
                          ("jpeg"%string, 0, false, true)];
               input_seqs := [[1; 5; 6]; [1; 5; 6]];
               target_seqs := [[5; 6; 2]; [5; 6; 2]];
               mask := [[1; 1; 1]; [1; 1; 1]] |}.
Proof.
  eexists. split; [reflexivity|].
  rewrite (unflipped_pipeline_batch _ traced_image one_file false
             (example_flags 2 false) true _
             [(1%nat, example_record, 1 # 4); (0%nat, example_record, 3 # 4)]
             [(("jpeg"%string, 1, false, true), [1; 5; 6; 2]);
              (("jpeg"%string, 0, false, true), [1; 5; 6; 2])]
             eq_refl eq_refl).
  - reflexivity.
  - repeat constructor; simpl; try lia;
      exists "jpeg"%string, [1; 5; 6; 2]; repeat split.
Defined.

Lemma flipped_op (image : Type)
      (simple_process_image : string -> Z -> bool -> bool -> image)
      (Glob : string -> list string) (fatal_aborts : bool)
      (FLAGS : Flags) (is_training : bool) (p : pipeline image)
      (i : nat) (op : SequenceExample -> Q -> result (image * list Z))
      (serialized : SequenceExample) (name : string)
      (encoded_image : string) (caption flip_caption : list Z) (u : Q) :
  support_flip FLAGS = true ->
  get_images_and_captions simple_process_image Glob fatal_aborts FLAGS
                          is_training = Ok p ->
  nth_error (threads p) i = Some op ->
  flip_caption_feature_name FLAGS = Some name ->
  lookup (image_feature_name FLAGS) (context serialized)
    = Some encoded_image ->
  lookup (caption_feature_name FLAGS) (feature_lists serialized)
    = Some caption ->
  lookup name (feature_lists serialized) = Some flip_caption ->
  op serialized u
  = Ok (if less u (1 # 2)
        then (simple_process_image encoded_image (Z.of_nat i) true
                                   is_training, flip_caption)
        else (simple_process_image encoded_image (Z.of_nat i) false
                                   is_training, caption)).
Proof.
  intros Hflip Hp Hi Hname Himg Hcap Hfcap.
  destruct (pipeline_thread _ _ _ _ _ _ p i op Hp Hi) as [Hop _].
  unfold preprocess_thread, cond_outputs in Hop. rewrite Hflip in Hop.
  destruct (truthy (flip_caption_feature_name FLAGS)) eqn:Ht;
    simpl in Hop; [|discriminate].
  injection Hop as <-. rewrite Hname in *.
  assert (E : parse_sequence_example serialized (image_feature_name FLAGS)
                (caption_feature_name FLAGS) (Some name)
              = Ok (encoded_image, caption, Some flip_caption)).
  { apply parse_with_flip; [exact Ht|]. repeat split; auto. discriminate. }
  rewrite E. simpl. destruct (less u (1 # 2)); reflexivity.
Qed.

(** X17. With flip support on, the batch the pipeline returns for the
    examples of one step is the dynamic batch of, for each record, the pair
    its own draw selects: the flipped image with the flip caption when the
    draw is below one half, the unflipped image with the caption otherwise;
    the image is processed under the id of the thread that dequeued the
    record. *)
Theorem flipped_pipeline_batch (image : Type)
        (simple_process_image : string -> Z -> bool -> bool -> image)
        (Glob : string -> list string) (fatal_aborts : bool)
        (FLAGS : Flags) (is_training : bool) (p : pipeline image)
        (name : string) (jobs : list (nat * SequenceExample * Q))
        (exs : list (image * list Z)) :
  support_flip FLAGS = true ->
  flip_caption_feature_name FLAGS = Some name ->
  get_images_and_captions simple_process_image Glob fatal_aborts FLAGS
                          is_training = Ok p ->
  Forall2 (fun (job : nat * SequenceExample * Q) ex =>
             Z.of_nat (fst (fst job)) < num_preprocess_threads FLAGS
             /\ exists encoded_image caption flip_caption,
                 lookup (image_feature_name FLAGS)
                        (context (snd (fst job))) = Some encoded_image
                 /\ lookup (caption_feature_name FLAGS)
                           (feature_lists (snd (fst job))) = Some caption
                 /\ lookup name (feature_lists (snd (fst job)))
                    = Some flip_caption
                 /\ ex = (if less (snd job) (1 # 2)
                          then (simple_process_image encoded_image
                                  (Z.of_nat (fst (fst job))) true is_training,
                                flip_caption)
                          else (simple_process_image encoded_image
                                  (Z.of_nat (fst (fst job))) false is_training,
                                caption)))
          jobs exs ->
  run_batch p jobs = batch_with_dynamic_pad exs.
Proof.
  intros Hflip Hname Hp Hjobs.
  rewrite (pipeline_run_batch _ _ _ _ _ _ p jobs Hp).
  rewrite (mapM_Forall2 (run_thread (threads p)) jobs exs); [reflexivity|].
  eapply Forall2_impl; [|exact Hjobs].
  intros [[i serialized] u] ex
         (Hi & enc & cap & fcap & Himg & Hcap & Hfcap & ->).
  simpl in *.
  destruct (pipeline_thread_at _ _ _ _ _ _ p i Hp Hi) as (op & Hop).
  rewrite Hop. eapply flipped_op; eauto.
Qed.

Lemma flipped_pipeline_batch_witness :
  exists p,
    get_images_and_captions traced_image one_file false
                            (example_flags 2 true) true = Ok p
    /\ run_batch p [(1%nat, example_record, 1 # 4);
                    (0%nat, example_record, 3 # 4)]
       = Ok {| images := [("jpeg"%string, 1, true, true);
                          ("jpeg"%string, 0, false, true)];
               input_seqs := [[1; 7; 6]; [1; 5; 6]];
               target_seqs := [[7; 6; 2]; [5; 6; 2]];
               mask := [[1; 1; 1]; [1; 1; 1]] |}.
Proof.
  eexists. split; [reflexivity|].
  rewrite (flipped_pipeline_batch _ traced_image one_file false
             (example_flags 2 true) true _ "image/flip_caption_ids"
             [(1%nat, example_record, 1 # 4); (0%nat, example_record, 3 # 4)]
             [(("jpeg"%string, 1, true, true), [1; 7; 6; 2]);
              (("jpeg"%string, 0, false, true), [1; 5; 6; 2])]
             eq_refl eq_refl eq_refl).
  - reflexivity.
  - repeat constructor; simpl; try lia;
      exists "jpeg"%string, [1; 5; 6; 2], [1; 7; 6; 2]; repeat split.
Defined.
